(** * halolight-bff: the backend-service client and registry

    A shallow embedding of [src/services/httpClient.ts],
    [src/services/serviceRegistry.ts] and the client factory of
    [src/context.ts], followed by the properties the specification
    states about them.

    Conventions of the embedding:
    - JavaScript strings are byte strings ([string]); every character the
      code inspects (['/'], [' ']) is ASCII.
    - JavaScript numbers that the code uses as counters, status codes,
      priorities and millisecond durations are integers ([Z]).
    - [undefined] / absent optional fields are [None].
    - A [Record<string, string>] is a [gmap string string]; a [Map] whose
      iteration order the code relies on is an association list in
      insertion order.
    - Objects whose identity matters (clients) live in a heap and are
      denoted by their reference. *)

From Stdlib Require Import ZArith Ascii String.
From stdpp Require Import gmap strings list pretty sorting.
From Equations Require Import Equations.

Local Open Scope Z_scope.

(** ** JavaScript primitives used by the sources *)

Module Js.

(** [s.endsWith('/')] *)
Fixpoint endsWithSlash (s : string) : bool :=
  match s with
  | EmptyString => false
  | String c EmptyString => bool_decide (c = "/"%char)
  | String _ rest => endsWithSlash rest
  end.

(** [s.startsWith('/')] *)
Definition startsWithSlash (s : string) : bool :=
  match s with
  | String c _ => bool_decide (c = "/"%char)
  | EmptyString => false
  end.

(** [s.slice(0, -1)]: everything but the last character. *)
Fixpoint sliceInit (s : string) : string :=
  match s with
  | EmptyString => EmptyString
  | String _ EmptyString => EmptyString
  | String c rest => String c (sliceInit rest)
  end.

(** [s.includes(sub)] *)
Definition includes (sub s : string) : bool :=
  match String.index 0 sub s with
  | Some _ => true
  | None => false
  end.

(** Truthiness of a [string | undefined] value: [if (s)]. *)
Definition truthyStr (s : option string) : bool :=
  match s with
  | Some (String _ _) => true
  | _ => false
  end.

(** [a ?? b] *)
Definition nullish {A} (a : option A) (b : A) : A :=
  match a with
  | Some x => x
  | None => b
  end.

(** [String(n)] and [`${n}`] for a number whose value is the integer
    [n], [-2^53 < n < 2^53]: its decimal digits.  (Beyond that range the
    platform prints the shortest digits that read back as the same
    double, and an exponent from [10^21] on.) *)
Definition numToString (n : Z) : string := pretty n.

(** The double-quote character. *)
Definition dquote : string := String (ascii_of_nat 34) EmptyString.

(** Parsed JSON.  Numbers are kept integral. *)
#[local] Unset Elimination Schemes.
Inductive Json : Type :=
  | JNull
  | JBool (b : bool)
  | JNum (n : Z)
  | JStr (s : string)
  | JArr (items : list Json)
  | JObj (fields : list (string * Json)).
#[local] Set Elimination Schemes.

(** [Boolean(v)] for a JSON value or [undefined]. *)
Definition truthy (v : option Json) : bool :=
  match v with
  | None | Some JNull | Some (JBool false) | Some (JNum 0)
  | Some (JStr EmptyString) => false
  | Some _ => true
  end.

(** Own property lookup in the field list of a parsed object. *)
Fixpoint field (k : string) (fields : list (string * Json)) : option Json :=
  match fields with
  | [] => None
  | (k', v) :: rest => if bool_decide (k' = k) then Some v else field k rest
  end.

(** [raw?.k] for a parsed JSON value that is not a string: only plain
    objects carry the properties [message] and [error]. *)
Definition prop (k : string) (raw : Json) : option Json :=
  match raw with
  | JObj fields => field k fields
  | _ => None
  end.

(** [v.includes(x)] for a string [x], [None] when the call raises a
    [TypeError]: a string answers whether [x] occurs in it, an array
    whether [x] is one of its elements, and no other value (nor
    [undefined]) has the method. *)
Definition includesValue (x : string) (v : option Json) : option bool :=
  match v with
  | Some (JStr s) => Some (includes x s)
  | Some (JArr items) =>
      Some (existsb (fun item => match item with
                                 | JStr s => bool_decide (s = x)
                                 | _ => false
                                 end) items)
  | _ => None
  end.

(** [a || b] on possibly-undefined JSON values. *)
Definition orElse (a b : option Json) : option Json :=
  if truthy a then a else b.

(** [a || b] where [b] is a value. *)
Definition orValue (a : option Json) (b : Json) : Json :=
  match a with
  | Some v => if truthy a then v else b
  | None => b
  end.

(** [{ ...target, ...src }]: the properties of [src] are copied over
    those of [target]. *)
Definition spread (target src : gmap string string) : gmap string string :=
  src ∪ target.

(** [Array.prototype.sort(cmp)], which is stable (ECMAScript 2019): an
    element is placed before the first element that compares strictly
    greater. *)
Fixpoint sortInsert {A} (cmp : A -> A -> Z) (x : A) (l : list A) : list A :=
  match l with
  | [] => [x]
  | y :: rest =>
      if 0 <? cmp y x then x :: y :: rest
      else y :: sortInsert cmp x rest
  end.

Definition sort {A} (cmp : A -> A -> Z) (l : list A) : list A :=
  foldl (fun acc x => sortInsert cmp x acc) [] l.

(** A value caught by a [catch] clause.  The operations inside the
    [try] block of [doFetch] raise objects only, never [null] or
    [undefined]. *)
Inductive Thrown (E : Type) : Type :=
  | ThrownTyped (e : E)                      (* instanceof TRPCError *)
  | ThrownError (name message : string)      (* any other Error instance *)
  | ThrownOther (name : option string).      (* not an Error; its [name] property *)
Arguments ThrownTyped {E} e.
Arguments ThrownError {E} name message.
Arguments ThrownOther {E} name.

End Js.

(** ** The platform's [URL] class

    [new URL(s)], [url.searchParams.set] and [url.toString()] are
    platform code.  The model covers absolute URLs given in serialised
    form without query or fragment, on which parsing followed by
    serialisation leaves the text as it is; the query is serialised as
    [application/x-www-form-urlencoded].  [serialised] below decides a
    set of such texts; outside it the platform rewrites the text
    (percent-encoding, dot segments, host case, default port) or
    throws, and [new] says nothing about the code. *)

Module URL.

Record t := { href : string; searchParams : list (string * string) }.

Definition new (s : string) : t := {| href := s; searchParams := [] |}.

(** *** Texts the URL parser leaves as they are

    An [http] or [https] URL whose host is made of dot-separated labels
    of lower-case letters, digits and single hyphens, each starting with
    a letter; whose port, if any, is a decimal number without leading
    zero, at most 65535 and not the scheme's default; and whose path
    starts with a slash and consists of segments other than [.] and
    [..] made of letters, digits and [-._~!$&'()*+,;=:@]. *)
















(** [searchParams.set(k, v)]: the first pair named [k] takes the value,
    later ones are removed; a new name is appended. *)
Fixpoint set (k v : string) (l : list (string * string)) : list (string * string) :=
  match l with
  | [] => [(k, v)]
  | (k', v') :: rest =>
      if bool_decide (k' = k)
      then (k, v) :: filter (fun p => p.1 ≠ k) rest
      else (k', v') :: set k v rest
  end.

Definition hexDigit (n : nat) : ascii :=
  match n with
  | 0 => "0" | 1 => "1" | 2 => "2" | 3 => "3" | 4 => "4" | 5 => "5"
  | 6 => "6" | 7 => "7" | 8 => "8" | 9 => "9" | 10 => "A" | 11 => "B"
  | 12 => "C" | 13 => "D" | 14 => "E" | _ => "F"
  end%nat%char.

Definition unreserved (n : nat) : bool :=
  ((48 <=? n) && (n <=? 57) || (65 <=? n) && (n <=? 90)
   || (97 <=? n) && (n <=? 122)
   || (n =? 42) || (n =? 45) || (n =? 46) || (n =? 95))%nat.

Fixpoint encode (s : string) : string :=
  match s with
  | EmptyString => EmptyString
  | String c rest =>
      let n := nat_of_ascii c in
      if unreserved n then String c (encode rest)
      else if (n =? 32)%nat then String "+"%char (encode rest)
      else String "%"%char
             (String (hexDigit (n / 16)%nat)
                (String (hexDigit (n mod 16)%nat) (encode rest)))
  end.

Fixpoint serialize (l : list (string * string)) : string :=
  match l with
  | [] => EmptyString
  | [(k, v)] => encode k +:+ "=" +:+ encode v
  | (k, v) :: rest => encode k +:+ "=" +:+ encode v +:+ "&" +:+ serialize rest
  end.

Definition toString (u : t) : string :=
  match searchParams u with
  | [] => href u
  | l => href u +:+ "?" +:+ serialize l
  end.

End URL.

(** ** [src/services/httpClient.ts] *)

Module HttpClient.
Import Js.

Inductive HttpMethod : Set := GET | POST | PUT | PATCH | DELETE.

Inductive TRPCCode : Set :=
  | BAD_REQUEST | UNAUTHORIZED | FORBIDDEN | NOT_FOUND | TIMEOUT
  | INTERNAL_SERVER_ERROR.

#[global] Instance HttpMethod_eq_dec : EqDecision HttpMethod.
Proof. solve_decision. Defined.

#[global] Instance TRPCCode_eq_dec : EqDecision TRPCCode.
Proof. solve_decision. Defined.

(** The [cause] option given to the [TRPCError] constructor. *)
Inductive Cause : Type :=
  | CauseNone
  | CauseResponse (status : Z) (body : Json)     (* { status, body: raw } *)
  | CauseValidation                              (* parsed.error *)
  | CauseCaught (name : option string) (message : option string).

(** The options a [TRPCError] is constructed from; [message] is the
    value handed to the constructor. *)
Record TRPCError := {
  code : TRPCCode;
  message : Json;
  cause : Cause;
}.

Definition Caught := Thrown TRPCError.

(** Completion of an awaited operation. *)
Inductive Completion (A : Type) : Type :=
  | Normal (a : A)
  | Abrupt (t : Caught).
Arguments Normal {A} a.
Arguments Abrupt {A} t.

(** A query value.  A number whose value is an integer is [QNumber];
    any other number (a fraction, [NaN], an infinity) is [QDouble] and
    carries the text [String] gives it. *)
Inductive QueryValue : Type :=
  | QString (s : string)
  | QNumber (n : Z)
  | QDouble (text : string)
  | QBoolean (b : bool)
  | QUndefined.

Record HttpClientConfig := {
  baseUrl : string;
  defaultHeaders : option (gmap string string);
  cfg_timeoutMs : option Z;
  cfg_retries : option Z;
}.

Record RequestOptions := {
  path : string;
  method : option HttpMethod;
  query : option (list (string * QueryValue));    (* in Object.entries order *)
  body : option Json;
  headers : option (gmap string string);
  timeoutMs : option Z;
  retries : option Z;
  token : option string;
  traceId : option string;
}.

(** A response validator: [schema.safeParse(raw)], [Some data] on
    success. *)
Definition Schema := Json -> option Json.

(** What [createHttpClient] closes over after destructuring [config]
    with its defaults. *)
Record HttpClient := {
  c_baseUrl : string;
  c_defaultHeaders : gmap string string;
  c_timeoutMs : Z;
  c_retries : Z;
}.

Definition createHttpClient (config : HttpClientConfig) : HttpClient :=
  {| c_baseUrl := baseUrl config;
     c_defaultHeaders := default ∅ (defaultHeaders config);
     c_timeoutMs := default 10000 (cfg_timeoutMs config);
     c_retries := default 2 (cfg_retries config) |}.

Definition mapHttpStatusToTRPCCode (status : Z) : TRPCCode :=
  match status with
  | 400 => BAD_REQUEST
  | 401 => UNAUTHORIZED
  | 403 => FORBIDDEN
  | 404 => NOT_FOUND
  | 408 | 504 => TIMEOUT
  | _ => INTERNAL_SERVER_ERROR
  end.

(** [String(value)] for a query value that is not [undefined]. *)
Definition queryValueToString (v : QueryValue) : option string :=
  match v with
  | QString s => Some s
  | QNumber n => Some (numToString n)
  | QDouble text => Some text
  | QBoolean true => Some "true"
  | QBoolean false => Some "false"
  | QUndefined => None
  end.

(** The string handed to [new URL]. *)
Definition joinUrl (c : HttpClient) (path : string) : string :=
  let base := if endsWithSlash (c_baseUrl c) then sliceInit (c_baseUrl c)
              else c_baseUrl c in
  let normalizedPath := if startsWithSlash path then path else "/" +:+ path in
  base +:+ normalizedPath.

Definition buildUrl (c : HttpClient) (path : string)
    (query : option (list (string * QueryValue))) : string :=
  let url := URL.new (joinUrl c path) in
  let url :=
    match query with
    | Some entries =>
        foldl (fun (u : URL.t) '(key, value) =>
                 match queryValueToString value with
                 | Some s =>
                     {| URL.href := URL.href u;
                        URL.searchParams := URL.set key s (URL.searchParams u) |}
                 | None => u
                 end) url entries
    | None => url
    end in
  URL.toString url.

(** The [requestHeaders] object of [doFetch]. *)
Definition requestHeaders (c : HttpClient) (opts : RequestOptions)
    : gmap string string :=
  let h := spread
             (spread {[ "Content-Type" := "application/json";
                        "Accept" := "application/json" ]}
                     (c_defaultHeaders c))
             (default ∅ (headers opts)) in
  let h := match token opts with
           | Some (String _ _ as t) => <[ "Authorization" := "Bearer " +:+ t ]> h
           | _ => h
           end in
  match traceId opts with
  | Some (String _ _ as t) => <[ "X-Request-Id" := t ]> (<[ "X-Trace-Id" := t ]> h)
  | _ => h
  end.

(** The [init] argument of [fetch] together with its URL and the delay
    after which the timer aborts the call. *)
Record FetchCall := {
  f_url : string;
  f_method : HttpMethod;
  f_headers : gmap string string;
  f_body : option Json;       (* the value that is JSON-encoded, if truthy *)
  f_deadline : Z;
}.

(** What the backend sends back. [response.json()] rejects on a body
    that is not JSON. *)
Record Response := {
  status : Z;
  contentType : option string;      (* response.headers.get('content-type') *)
  json : Completion Json;           (* await response.json() *)
  text : string;                    (* await response.text() *)
}.

(** [response.ok] *)
Definition ok (r : Response) : bool := (200 <=? status r) && (status r <=? 299).

(** How one call to the transport ends when nothing aborts it, and after
    how many milliseconds. *)
Record Answer := {
  latency : Z;
  outcome : Completion Response;
}.

Definition AbortError : Caught :=
  ThrownError "AbortError" "This operation was aborted".

(** [await fetch(url, { ..., signal })] followed by the body read, under
    [setTimeout(() => controller.abort(), deadline)]: an answer that
    has not arrived when the timer fires is replaced by the abort. *)
Definition awaitResponse (call : FetchCall) (a : Answer) : Completion Response :=
  if f_deadline call <=? latency a then Abrupt AbortError else outcome a.

Definition fetchCall (c : HttpClient) (opts : RequestOptions) : FetchCall :=
  {| f_url := buildUrl c (path opts) (query opts);
     f_method := default GET (method opts);
     f_headers := requestHeaders c opts;
     f_body := if truthy (body opts) then body opts else None;
     f_deadline := nullish (timeoutMs opts) (c_timeoutMs c) |}.

(** [errorMessage] of the non-2xx branch. *)
Definition errorMessage (raw : Json) (status : Z) : Json :=
  match raw with
  | JStr s => JStr s
  | _ =>
      orValue (orElse (prop "message" raw) (prop "error" raw))
        (JStr ("Request failed with status " +:+ numToString status))
  end.

(** [raw]: the body read as JSON when the content type says so, as
    text otherwise. *)
Definition readBody (response : Response) : Completion Json :=
  let contentType := default EmptyString (contentType response) in
  let isJson := includes "application/json" contentType in
  if isJson then json response else Normal (JStr (text response)).

(** The body of the [try] block once the response has arrived. *)
Definition handleResponse (schema : option Schema) (response : Response)
    : Completion Json :=
  match readBody response with
  | Abrupt t => Abrupt t
  | Normal raw =>
      if negb (ok response) then
        Abrupt (ThrownTyped
          {| code := mapHttpStatusToTRPCCode (status response);
             message := errorMessage raw (status response);
             cause := CauseResponse (status response) raw |})
      else
        match schema with
        | None => Normal raw
        | Some safeParse =>
            match safeParse raw with
            | None =>
                Abrupt (ThrownTyped
                  {| code := INTERNAL_SERVER_ERROR;
                     message := JStr "Response validation failed";
                     cause := CauseValidation |})
            | Some data => Normal data
            end
        end
  end.

(** The [catch] clause of [doFetch]; it always throws. *)
Definition catchClause (error : Caught) : Caught :=
  match error with
  | ThrownTyped e => ThrownTyped e
  | ThrownError name msg =>
      if bool_decide (name = "AbortError") then
        ThrownTyped {| code := TIMEOUT; message := JStr "Request timed out";
                       cause := CauseNone |}
      else
        ThrownTyped {| code := INTERNAL_SERVER_ERROR; message := JStr msg;
                       cause := CauseCaught (Some name) (Some msg) |}
  | ThrownOther name =>
      if bool_decide (name = Some "AbortError") then
        ThrownTyped {| code := TIMEOUT; message := JStr "Request timed out";
                       cause := CauseNone |}
      else
        ThrownTyped {| code := INTERNAL_SERVER_ERROR;
                       message := JStr "Unknown error occurred";
                       cause := CauseCaught name None |}
  end.

(** One attempt, given the transport's answer to its call. *)
Definition doFetch (c : HttpClient) (opts : RequestOptions)
    (schema : option Schema) (a : Answer) : Completion Json :=
  let tried :=
    match awaitResponse (fetchCall c opts) a with
    | Abrupt t => Abrupt t
    | Normal response => handleResponse schema response
    end in
  match tried with
  | Normal v => Normal v
  | Abrupt error => Abrupt (catchClause error)
  end.

(** *** The world a client runs in

    Calls to the transport and timer waits are recorded in the order in
    which they happen ([log], newest first); [now] is the reading of
    [Date.now()] and [sent] counts the transport calls made so far.  The
    transport answers the [n]-th call according to [net n]. *)

Inductive Event : Type :=
  | EvFetch (call : FetchCall)
  | EvSleep (ms : Z).

Record World := {
  now : Z;
  sent : nat;
  log : list Event;
}.

Definition Transport := nat -> FetchCall -> Answer.

(** Events in chronological order. *)
Definition timeline (w : World) : list Event := reverse (log w).

(** [await sleep(ms)] *)
Definition sleep (ms : Z) (w : World) : World :=
  {| now := now w + ms; sent := sent w; log := EvSleep ms :: log w |}.

(** [await doFetch(options, schema)] *)
Definition awaitDoFetch (net : Transport) (c : HttpClient)
    (opts : RequestOptions) (schema : option Schema) (w : World)
    : Completion Json * World :=
  let call := fetchCall c opts in
  let a := net (sent w) call in
  (doFetch c opts schema a,
   {| now := now w + Z.min (latency a) (f_deadline call);
      sent := S (sent w);
      log := EvFetch call :: log w |}).

(** How the promise returned by [request] settles; [Rejected None] is
    [throw undefined]. *)
Inductive Settled : Type :=
  | Fulfilled (v : Json)
  | Rejected (error : option Caught).

Definition isIdempotent (opts : RequestOptions) : bool :=
  bool_decide (default GET (method opts) ∈ [GET; PUT; DELETE]).

Definition isRetryable (error : Caught) : bool :=
  match error with
  | ThrownTyped e => bool_decide (code e ∈ [TIMEOUT; INTERNAL_SERVER_ERROR])
  | _ => false
  end.

Definition backoffMs (attempt : Z) : Z := Z.min (100 * 2 ^ (attempt - 1)) 2000.

(** The [for] loop of [request], entered at [attempt]. *)
Equations? attempts (net : Transport) (c : HttpClient) (options : RequestOptions)
    (schema : option Schema) (maxAttempts attempt : Z)
    (lastError : option Caught) (w : World) : Settled * World
  by wf (Z.to_nat (maxAttempts + 1 - attempt)) lt :=
  attempts net c options schema maxAttempts attempt lastError w
    with decide (attempt <= maxAttempts) := {
    | right _ => (Rejected lastError, w)
    | left _ =>
        match awaitDoFetch net c options schema w with
        | (Normal v, w1) => (Fulfilled v, w1)
        | (Abrupt error, w1) =>
            let isLastAttempt := bool_decide (attempt = maxAttempts) in
            if isLastAttempt || negb (isRetryable error)
               || negb (isIdempotent options)
            then (Rejected (Some error), w1)
            else attempts net c options schema maxAttempts (attempt + 1)
                   (Some error) (sleep (backoffMs attempt) w1)
        end }.
Proof. lia. Qed.

Definition maxAttempts (c : HttpClient) (options : RequestOptions) : Z :=
  nullish (retries options) (c_retries c) + 1.

Definition request (net : Transport) (c : HttpClient) (options : RequestOptions)
    (schema : option Schema) (w : World) : Settled * World :=
  attempts net c options schema (maxAttempts c options) 1 None w.

(** [{ ...options }] for an absent [options] argument. *)
Definition noOptions : RequestOptions :=
  {| path := EmptyString; method := None; query := None; body := None;
     headers := None; timeoutMs := None; retries := None; token := None;
     traceId := None |}.

(** [{ ...options, path, method }] *)
Definition withPathMethod (options : option RequestOptions) (p : string)
    (m : HttpMethod) : RequestOptions :=
  let o := default noOptions options in
  {| path := p; method := Some m; query := query o; body := body o;
     headers := headers o; timeoutMs := timeoutMs o; retries := retries o;
     token := token o; traceId := traceId o |}.

(** [{ ...options, path, method, body }] *)
Definition withPathMethodBody (options : option RequestOptions) (p : string)
    (m : HttpMethod) (b : option Json) : RequestOptions :=
  let o := default noOptions options in
  {| path := p; method := Some m; query := query o; body := b;
     headers := headers o; timeoutMs := timeoutMs o; retries := retries o;
     token := token o; traceId := traceId o |}.

Definition get (net : Transport) (c : HttpClient) (p : string)
    (options : option RequestOptions) (schema : option Schema) (w : World) :=
  request net c (withPathMethod options p GET) schema w.

Definition post (net : Transport) (c : HttpClient) (p : string) (b : option Json)
    (options : option RequestOptions) (schema : option Schema) (w : World) :=
  request net c (withPathMethodBody options p POST b) schema w.

Definition put (net : Transport) (c : HttpClient) (p : string) (b : option Json)
    (options : option RequestOptions) (schema : option Schema) (w : World) :=
  request net c (withPathMethodBody options p PUT b) schema w.

Definition patch (net : Transport) (c : HttpClient) (p : string) (b : option Json)
    (options : option RequestOptions) (schema : option Schema) (w : World) :=
  request net c (withPathMethodBody options p PATCH b) schema w.

Definition delete (net : Transport) (c : HttpClient) (p : string)
    (options : option RequestOptions) (schema : option Schema) (w : World) :=
  request net c (withPathMethod options p DELETE) schema w.

End HttpClient.

(** ** A JavaScript [Map] in insertion order *)

Module JsMap.
Section JsMap.
Context {K V : Type} `{EqDecision K}.

Definition t := list (K * V).

Fixpoint get (k : K) (m : list (K * V)) : option V :=
  match m with
  | [] => None
  | (k', v) :: rest => if decide (k' = k) then Some v else get k rest
  end.

(** [m.set(k, v)]: an existing key keeps its position. *)
Fixpoint set (k : K) (v : V) (m : list (K * V)) : list (K * V) :=
  match m with
  | [] => [(k, v)]
  | (k', v') :: rest =>
      if decide (k' = k) then (k, v) :: rest else (k', v') :: set k v rest
  end.

Definition has (k : K) (m : list (K * V)) : bool :=
  match get k m with Some _ => true | None => false end.

Definition keys (m : list (K * V)) : list K := m.*1.

Definition values (m : list (K * V)) : list V := m.*2.

Definition size (m : list (K * V)) : nat := length m.

End JsMap.
End JsMap.

(** ** [src/services/serviceRegistry.ts] *)

Module ServiceRegistry.
Import Js.

Inductive ServiceKind : Set := python | bun | java | nestjs | node | go.

#[global] Instance ServiceKind_eq_dec : EqDecision ServiceKind.
Proof. solve_decision. Defined.

Definition ServiceKind_index (k : ServiceKind) : nat :=
  match k with
  | python => 0 | bun => 1 | java => 2 | nestjs => 3 | node => 4 | go => 5
  end%nat.

Definition ServiceKind_of_index (n : nat) : ServiceKind :=
  match n with
  | 0 => python | 1 => bun | 2 => java | 3 => nestjs | 4 => node | _ => go
  end%nat.

#[global] Instance ServiceKind_countable : Countable ServiceKind.
Proof.
  apply (inj_countable' ServiceKind_index ServiceKind_of_index).
  intros []; reflexivity.
Defined.

(** The service name as it is printed in a template literal. *)
Definition kindToString (k : ServiceKind) : string :=
  match k with
  | python => "python" | bun => "bun" | java => "java"
  | nestjs => "nestjs" | node => "node" | go => "go"
  end.

Record ServiceConfig := {
  name : ServiceKind;
  baseUrl : string;
  healthPath : option string;
  priority : option Z;
}.

Definition ENV_VAR_MAP (k : ServiceKind) : string :=
  match k with
  | python => "HALOLIGHT_API_PYTHON_URL"
  | bun => "HALOLIGHT_API_BUN_URL"
  | java => "HALOLIGHT_API_JAVA_URL"
  | nestjs => "HALOLIGHT_API_NESTJS_URL"
  | node => "HALOLIGHT_API_NODE_URL"
  | go => "HALOLIGHT_API_GO_URL"
  end.

(** [Object.keys(ENV_VAR_MAP)] *)
Definition ENV_VAR_MAP_keys : list ServiceKind :=
  [python; bun; java; nestjs; node; go].

Definition DEFAULT_PRIORITY (k : ServiceKind) : Z :=
  match k with
  | nestjs => 1 | python => 2 | bun => 3 | java => 4 | node => 5 | go => 6
  end.

Definition DEFAULT_HEALTH_PATH : string := "/health".

(** [process.env] *)
Definition Env := gmap string string.

Definition loadServices (env : gmap string string)
    : list (ServiceKind * ServiceConfig) :=
  foldl (fun services kind =>
           match env !! ENV_VAR_MAP kind with
           | Some (String _ _ as url) =>
               JsMap.set kind
                 {| name := kind;
                    baseUrl := if endsWithSlash url then sliceInit url else url;
                    healthPath := Some DEFAULT_HEALTH_PATH;
                    priority := Some (DEFAULT_PRIORITY kind) |}
                 services
           | _ => services
           end)
        [] ENV_VAR_MAP_keys.

(** A client object: the closure made by [createHttpClient] together
    with the identity it received when it was allocated. *)
Record ClientObject := {
  oid : nat;
  client : HttpClient.HttpClient;
}.

(** The registry singleton, the module-level [clientCache] and the
    allocator of client objects. *)
Record State := {
  services : list (ServiceKind * ServiceConfig);
  defaultService : option ServiceKind;
  clientCache : gmap ServiceKind ClientObject;
  nextOid : nat;
}.

(** The comparison function given to [sort]. *)
Definition byPriority (a b : ServiceConfig) : Z :=
  nullish (priority a) 99 - nullish (priority b) 99.

Definition findDefaultService (services : list (ServiceKind * ServiceConfig))
    : option ServiceKind :=
  if bool_decide (JsMap.size services = 0%nat) then None
  else
    let sorted := sort byPriority (JsMap.values services) in
    name <$> head sorted.

(** The constructor, run once when the module is loaded: the cache is
    empty and no client has been allocated. *)
Definition construct (env : gmap string string) : State :=
  let services := loadServices env in
  {| services := services;
     defaultService := findDefaultService services;
     clientCache := ∅;
     nextOid := 0 |}.

Definition reload (env : gmap string string) (st : State) : State :=
  let services := loadServices env in
  {| services := services;
     defaultService := findDefaultService services;
     clientCache := ∅;
     nextOid := nextOid st |}.

Definition getServices (st : State) : list ServiceConfig :=
  JsMap.values (services st).

Definition hasService (n : ServiceKind) (st : State) : bool :=
  JsMap.has n (services st).

Definition getServiceConfig (n : ServiceKind) (st : State) : option ServiceConfig :=
  JsMap.get n (services st).

(** [Partial<HttpClientConfig>] *)
Record PartialConfig := {
  p_baseUrl : option string;
  p_defaultHeaders : option (gmap string string);
  p_timeoutMs : option Z;
  p_retries : option Z;
}.

(** A call either returns or throws [new Error(message)]. *)
Inductive Result (A : Type) : Type :=
  | Returns (a : A)
  | Throws (message : string).
Arguments Returns {A} a.
Arguments Throws {A} message.

Definition notConfiguredMessage (n : ServiceKind) : string :=
  "Service " +:+ dquote +:+ kindToString n +:+ dquote
  +:+ " is not configured. Set " +:+ ENV_VAR_MAP n
  +:+ " environment variable.".

(** [{ baseUrl: service.baseUrl, timeoutMs: 10000, retries: 2, ...options }] *)
Definition clientConfig (service : ServiceConfig) (options : option PartialConfig)
    : HttpClient.HttpClientConfig :=
  {| HttpClient.baseUrl := default (baseUrl service) (options ≫= p_baseUrl);
     HttpClient.defaultHeaders := options ≫= p_defaultHeaders;
     HttpClient.cfg_timeoutMs := Some (default 10000 (options ≫= p_timeoutMs));
     HttpClient.cfg_retries := Some (default 2 (options ≫= p_retries)) |}.

Definition getClient (n : ServiceKind) (options : option PartialConfig)
    (st : State) : Result ClientObject * State :=
  match clientCache st !! n, options with
  | Some cached, None => (Returns cached, st)
  | _, _ =>
      match JsMap.get n (services st) with
      | None => (Throws (notConfiguredMessage n), st)
      | Some service =>
          let obj := {| oid := nextOid st;
                        client := HttpClient.createHttpClient
                                    (clientConfig service options) |} in
          let cache := match options with
                       | None => <[ n := obj ]> (clientCache st)
                       | Some _ => clientCache st
                       end in
          (Returns obj,
           {| services := services st;
              defaultService := defaultService st;
              clientCache := cache;
              nextOid := S (nextOid st) |})
      end
  end.

Definition noDefaultMessage : string :=
  "No backend services configured. Set at least one HALOLIGHT_API_*_URL.".

Definition getDefaultClient (options : option PartialConfig) (st : State)
    : Result ClientObject * State :=
  match defaultService st with
  | None => (Throws noDefaultMessage, st)
  | Some n => getClient n options st
  end.

Definition getDefaultServiceName (st : State) : option ServiceKind :=
  defaultService st.

Record Health := {
  healthy : bool;
  latencyMs : Z;
}.

(** The options of the health probe: [{ timeoutMs: 3000, retries: 0 }]. *)
Definition healthOptions : HttpClient.RequestOptions :=
  {| HttpClient.path := EmptyString; HttpClient.method := None;
     HttpClient.query := None; HttpClient.body := None;
     HttpClient.headers := None; HttpClient.timeoutMs := Some 3000;
     HttpClient.retries := Some 0; HttpClient.token := None;
     HttpClient.traceId := None |}.

Definition checkHealth (net : HttpClient.Transport) (n : ServiceKind)
    (st : State) (w : HttpClient.World) : Health * State * HttpClient.World :=
  match JsMap.get n (services st) with
  | None => ({| healthy := false; latencyMs := -1 |}, st, w)
  | Some service =>
      let start := HttpClient.now w in
      match getClient n None st with
      | (Throws _, st1) =>
          ({| healthy := false; latencyMs := HttpClient.now w - start |}, st1, w)
      | (Returns obj, st1) =>
          let p := if truthyStr (healthPath service)
                   then default DEFAULT_HEALTH_PATH (healthPath service)
                   else DEFAULT_HEALTH_PATH in
          match HttpClient.get net (client obj) p (Some healthOptions) None w with
          | (HttpClient.Fulfilled _, w1) =>
              ({| healthy := true; latencyMs := HttpClient.now w1 - start |},
               st1, w1)
          | (HttpClient.Rejected _, w1) =>
              ({| healthy := false; latencyMs := HttpClient.now w1 - start |},
               st1, w1)
          end
      end
  end.

End ServiceRegistry.

(** ** The client factory of [src/context.ts] *)

Module RequestContext.
Import Js ServiceRegistry.

(** The [defaultHeaders] object built by [createContext] from the
    request's [traceId] and [token]. *)
Definition contextHeaders (token : option string) (traceId : string)
    : gmap string string :=
  spread {[ "X-Trace-Id" := traceId ]}
    match token with
    | Some (String _ _ as t) => {[ "Authorization" := "Bearer " +:+ t ]}
    | _ => ∅
    end.

Definition contextOptions (token : option string) (traceId : string)
    : PartialConfig :=
  {| p_baseUrl := None;
     p_defaultHeaders := Some (contextHeaders token traceId);
     p_timeoutMs := None;
     p_retries := None |}.

(** [ctx.services.get(name)] *)
Definition services_get (token : option string) (traceId : string)
    (n : ServiceKind) (st : State) : Result ClientObject * State :=
  getClient n (Some (contextOptions token traceId)) st.

(** [ctx.services.getDefault()] *)
Definition services_getDefault (token : option string) (traceId : string)
    (st : State) : Result ClientObject * State :=
  getDefaultClient (Some (contextOptions token traceId)) st.

End RequestContext.

(** ** [createContext] of [src/context.ts] *)

Module CreateContext.
Import Js ServiceRegistry.

(** [s.split(' ')]: the pieces between single spaces; never empty. *)
Fixpoint splitSpace (s : string) : list string :=
  match s with
  | EmptyString => [EmptyString]
  | String c rest =>
      if bool_decide (c = " "%char) then EmptyString :: splitSpace rest
      else match splitSpace rest with
           | piece :: pieces => String c piece :: pieces
           | [] => [String c EmptyString]
           end
  end.

(** The headers of the inbound request that the code reads. *)
Record Request := {
  authorization : option string;
  x_trace_id : option string;
  x_request_id : option string;
}.

(** [user] holds what [jwt.verify] returned, which the code casts to
    [User] without looking at it: the payload the token was signed
    with, an object or a string. *)
Record Context := {
  req : Request;
  user : option Json;
  token : option string;
  traceId : string;
}.

(** [req.headers.authorization?.split(' ')[1]] *)
Definition secondWord (r : Request) : option string :=
  authorization r ≫= fun a => splitSpace a !! 1%nat.

(** [process.env.JWT_SECRET || 'default-secret-key'] *)
Definition jwtSecret (env : gmap string string) : string :=
  match env !! "JWT_SECRET" with
  | Some (String _ _ as secret) => secret
  | _ => "default-secret-key"
  end.

(** [jwt.verify(token, secret)]: the decoded payload, [None] when it
    throws. *)
Definition Verifier := string → string → option Json.

(** [createContext]; [uuid] is what [randomUUID()] returns. *)
Definition createContext (verify : Verifier) (env : gmap string string)
    (uuid : string) (r : Request) : Context :=
  let token := secondWord r in
  let user :=
    match token with
    | Some (String _ _ as t) => verify t (jwtSecret env)
    | _ => None
    end in
  let traceId :=
    match x_trace_id r with
    | Some (String _ _ as t) => t
    | _ =>
        match x_request_id r with
        | Some (String _ _ as t) => t
        | _ => uuid
        end
    end in
  {| req := r; user := user; token := token; traceId := traceId |}.

(** [ctx.services.get(name)] and [ctx.services.getDefault()] of the
    context just built. *)
Definition get (ctx : Context) (n : ServiceKind) (st : State)
    : Result ClientObject * State :=
  RequestContext.services_get (token ctx) (traceId ctx) n st.

Definition getDefault (ctx : Context) (st : State)
    : Result ClientObject * State :=
  RequestContext.services_getDefault (token ctx) (traceId ctx) st.

End CreateContext.

(** ** [src/middleware/auth.ts] *)

Module Auth.
Import Js HttpClient CreateContext.

(** A middleware either calls [next] with a context or throws: a
    [TRPCError] of its own making, or the [TypeError] of reading a
    property of [undefined] or [null] or of calling what is not a
    function. *)
Inductive Outcome : Type :=
  | Next (ctx : Context)
  | Reject (error : TRPCError)
  | TypeError.

Definition reject (c : TRPCCode) (msg : string) : Outcome :=
  Reject {| code := c; message := JStr msg; cause := CauseNone |}.

Definition isAuthenticated (verify : Verifier) (env : gmap string string)
    (ctx : Context) : Outcome :=
  match secondWord (req ctx) with
  | Some (String _ _ as t) =>
      match verify t (jwtSecret env) with
      | Some decoded =>
          Next {| req := req ctx; user := Some decoded; token := token ctx;
                  traceId := traceId ctx |}
      | None => reject UNAUTHORIZED "Invalid or expired token"
      end
  | _ => reject UNAUTHORIZED "No authentication token provided"
  end.

(** [ctx.user.role] once [ctx.user] is known to be truthy; [None] is
    [undefined]. *)
Definition userRole (ctx : Context) : option Json := user ctx ≫= prop "role".

Definition hasPermission (permission : string) (ctx : Context) : Outcome :=
  if negb (truthy (user ctx)) then
    reject UNAUTHORIZED "Authentication required"
  else
    match userRole ctx with
    | None | Some JNull => TypeError     (* const { permissions } = undefined *)
    | Some role =>
        let permissions := prop "permissions" role in
        match includesValue "*" permissions with
        | None => TypeError
        | Some true => Next ctx
        | Some false =>
            match includesValue permission permissions with
            | None => TypeError
            | Some false =>
                reject FORBIDDEN
                  ("Permission denied: " +:+ permission +:+ " required")
            | Some true => Next ctx
            end
        end
    end.


End Auth.

(** * Properties *)

(** ** Notions used to state the properties *)

Module Stated.
Import Js HttpClient ServiceRegistry.

(** A client for a base URL with every other setting left to its default. *)
Definition clientAt (base : string) : HttpClient :=
  createHttpClient {| HttpClient.baseUrl := base; defaultHeaders := None;
                      cfg_timeoutMs := None; cfg_retries := None |}.




(** The decimal digit of a number from 0 to 9. *)
Definition digit (d : Z) : string :=
  String (ascii_of_nat (48 + Z.to_nat d)) EmptyString.

(** [b] does not end with a slash; [p] does not start with one. *)
Definition noTrailingSlash (b : string) : Prop := ∀ b', b ≠ b' +:+ "/".
Definition noLeadingSlash (p : string) : Prop := ∀ p', p ≠ "/" +:+ p'.

(** [b] is the base less its trailing slash, if it has one. *)
Definition baseLessSlash (base b : string) : Prop :=
  base = b +:+ "/" ∨ (base = b ∧ noTrailingSlash b).

(** [p] is the path less its leading slash, if it has one. *)
Definition pathLessSlash (path p : string) : Prop :=
  path = "/" +:+ p ∨ (path = p ∧ noLeadingSlash p).

(** [sub] occurs in [s]. *)
Definition contains (sub s : string) : Prop :=
  ∃ before after, s = before +:+ sub +:+ after.

(** The body of a response as an attempt reads it: parsed as JSON when
    the content type names [application/json], as text otherwise. *)
Inductive bodyRead (r : Response) : Completion Json → Prop :=
  | read_json ct :
      contentType r = Some ct → contains "application/json" ct →
      bodyRead r (json r)
  | read_text :
      (∀ ct, contentType r = Some ct → ¬ contains "application/json" ct) →
      bodyRead r (Normal (JStr (text r))).

(** The values [||] passes over. *)
Definition falsy (v : Json) : Prop :=
  v = JNull ∨ v = JBool false ∨ v = JNum 0 ∨ v = JStr EmptyString.

(** [v] is the value of the property [k] of the object [obj]. *)
Inductive hasField (k : string) : Json → Json → Prop :=
  | hasField_at before v after :
      k ∉ before.*1 → hasField k (JObj (before ++ (k, v) :: after)) v.

(** The property [k] of [raw] can serve as a message, or cannot (it is
    absent or falsy, or [raw] is no object). *)
Definition usable (k : string) (raw v : Json) : Prop :=
  hasField k raw v ∧ ¬ falsy v.

Definition unusable (k : string) (raw : Json) : Prop :=
  ∀ v, hasField k raw v → falsy v.

(** The answer arrives before the call's deadline. *)
Definition inTime (c : HttpClient) (opts : RequestOptions) (a : Answer) : Prop :=
  latency a < default (c_timeoutMs c) (timeoutMs opts).

(** The status lies in the success range. *)
Definition success (r : Response) : Prop := 200 ≤ status r ≤ 299.

(** A caught value whose [name] is ['AbortError']. *)
Definition isAbort (t : Caught) : bool :=
  match t with
  | ThrownTyped _ => false
  | ThrownError name _ => bool_decide (name = "AbortError")
  | ThrownOther name => bool_decide (name = Some "AbortError")
  end.

Definition isTyped (t : Caught) : bool :=
  match t with
  | ThrownTyped _ => true
  | _ => false
  end.

Definition isString (raw : Json) : bool :=
  match raw with
  | JStr _ => true
  | _ => false
  end.

(** Layers of the outgoing header map. *)
Definition baseline : gmap string string :=
  {[ "Content-Type" := "application/json"; "Accept" := "application/json" ]}.

Definition authLayer (token : option string) : gmap string string :=
  match token with
  | Some (String _ _ as t) => {[ "Authorization" := "Bearer " +:+ t ]}
  | _ => ∅
  end.

Definition traceLayer (traceId : option string) : gmap string string :=
  match traceId with
  | Some (String _ _ as t) => {[ "X-Trace-Id" := t; "X-Request-Id" := t ]}
  | _ => ∅
  end.

(** Merging layers from first to last, a later layer overriding an
    earlier one on key collision. *)
Definition mergeInOrder (layers : list (gmap string string))
    : gmap string string :=
  foldl spread ∅ layers.

(** The header map as the specification words it: client defaults, then
    per-call headers, then the baseline, then authorisation, then the
    trace headers. *)
Definition headersInStatedOrder (c : HttpClient) (opts : RequestOptions)
    : gmap string string :=
  mergeInOrder [ c_defaultHeaders c; default ∅ (headers opts); baseline;
                 authLayer (token opts); traceLayer (traceId opts) ].

(** The outcome of the attempt that is the [k]-th call to the transport. *)
Definition attemptAt (net : Transport) (c : HttpClient) (opts : RequestOptions)
    (schema : option Schema) (k : nat) : Completion Json :=
  doFetch c opts schema (net k (fetchCall c opts)).

(** The number of single-attempt executions between two worlds. *)
Definition executions (w w' : World) : nat := (sent w' - sent w)%nat.

(** The delay the specification gives for the wait before attempt [N]. *)
Definition delayBefore (N : Z) : Z := Z.min (100 * 2 ^ (N - 2)) 2000.

(** The events of attempts [N], [N+1], ..., [n] of them, one after the
    other, each but the first preceded by its delay. *)
Fixpoint scheduleFrom (call : FetchCall) (N : Z) (n : nat) : list Event :=
  match n with
  | O => []
  | S n' =>
      EvFetch call ::
      match n' with
      | O => []
      | S _ => EvSleep (delayBefore (N + 1)) :: scheduleFrom call (N + 1) n'
      end
  end.

Definition schedule (call : FetchCall) (n : nat) : list Event :=
  scheduleFrom call 1 n.

(** A backend answer: 404 with a JSON body. *)
Definition notFoundAnswer : Answer :=
  {| latency := 12;
     outcome := Normal
       {| status := 404;
          contentType := Some "application/json; charset=utf-8";
          json := Normal (JObj [("message", JStr "No such user")]);
          text := EmptyString |} |}.

(** A backend answer: 404 announcing JSON with a body that is not. *)
Definition garbledNotFound : Answer :=
  {| latency := 12;
     outcome := Normal
       {| status := 404;
          contentType := Some "application/json";
          json := Abrupt (ThrownError "SyntaxError"
                            "Unexpected token < in JSON at position 0");
          text := "<html>Not Found</html>" |} |}.

(** A backend answer: 502 with an empty text body. *)
Definition emptyBadGateway : Answer :=
  {| latency := 12;
     outcome := Normal
       {| status := 502;
          contentType := Some "text/plain";
          json := Abrupt (ThrownError "SyntaxError"
                            "Unexpected end of JSON input");
          text := EmptyString |} |}.

(** A backend that answers every call with 500 and a JSON body. *)
Definition alwaysFailing : Transport :=
  fun _ _ =>
    {| latency := 40;
       outcome := Normal
         {| status := 500;
            contentType := Some "application/json";
            json := Normal (JObj [("error", JStr "boom")]);
            text := EmptyString |} |}.

(** The world before anything has happened. *)
Definition start : World := {| now := 0; sent := 0; log := [] |}.

(** A call that sends its own content type. *)
Definition plainTextCall : RequestOptions :=
  {| path := "/notes"; method := Some POST; query := None;
     body := Some (JStr "hello");
     headers := Some {[ "Content-Type" := "text/plain" ]};
     timeoutMs := None; retries := None; token := None; traceId := None |}.

(** *** The registry *)

(** The priority the comparison function gives a service. *)
Definition effPriority (cfg : ServiceConfig) : Z := nullish (priority cfg) 99.

Definition ascending (a b : ServiceConfig) : Prop :=
  effPriority a ≤ effPriority b.

(** Scanning from the left, keep the current choice unless the next
    service has a strictly smaller priority. *)
Definition pick (best : option ServiceConfig) (y : ServiceConfig)
    : option ServiceConfig :=
  match best with
  | None => Some y
  | Some h => if 0 <? byPriority h y then Some y else Some h
  end.

(** The configuration [loadServices] stores for a kind, if its variable
    is set to a non-empty value. *)
Definition loadedConfig (env : gmap string string) (kind : ServiceKind)
    : option ServiceConfig :=
  match env !! ENV_VAR_MAP kind with
  | Some (String _ _ as url) =>
      Some {| name := kind;
              baseUrl := if endsWithSlash url then sliceInit url else url;
              healthPath := Some DEFAULT_HEALTH_PATH;
              priority := Some (DEFAULT_PRIORITY kind) |}
  | _ => None
  end.

(** The function [loadServices] folds over the kinds. *)
Definition loadStep (env : gmap string string)
    (services : list (ServiceKind * ServiceConfig)) (kind : ServiceKind)
    : list (ServiceKind * ServiceConfig) :=
  match env !! ENV_VAR_MAP kind with
  | Some (String _ _ as url) =>
      JsMap.set kind
        {| name := kind;
           baseUrl := if endsWithSlash url then sliceInit url else url;
           healthPath := Some DEFAULT_HEALTH_PATH;
           priority := Some (DEFAULT_PRIORITY kind) |}
        services
  | _ => services
  end.

(** The operations that change the registry or the client cache.  The
    per-request factory of [createContext] calls [getClient] and
    [getDefaultClient] with overrides, and [checkAllHealth] touches the
    state only through the [checkHealth] calls it starts. *)
Inductive Op : Type :=
  | OpReload (env : gmap string string)
  | OpGetClient (n : ServiceKind) (options : option PartialConfig)
  | OpGetDefaultClient (options : option PartialConfig)
  | OpCheckHealth (net : Transport) (n : ServiceKind) (w : World).

Definition step (op : Op) (st : State) : State :=
  match op with
  | OpReload env => reload env st
  | OpGetClient n options => (getClient n options st).2
  | OpGetDefaultClient options => (getDefaultClient options st).2
  | OpCheckHealth net n w => (checkHealth net n st w).1.2
  end.

(** The states of a running gateway. *)
Inductive reachable : State → Prop :=
  | reach_construct env : reachable (construct env)
  | reach_step op st : reachable st → reachable (step op st).

(** The invariants the specification states for the registry. *)
Definition Inv (st : State) : Prop :=
  (defaultService st = None ↔ JsMap.size (services st) = 0%nat)
  ∧ (∀ n, defaultService st = Some n → is_Some (JsMap.get n (services st)))
  ∧ (∀ n, is_Some (clientCache st !! n) → is_Some (JsMap.get n (services st))).

(** The configuration was read from some environment and the default
    derived from it. *)
Definition Loaded (st : State) : Prop :=
  ∃ env, services st = loadServices env
         ∧ defaultService st = findDefaultService (loadServices env).

(** A cached client was allocated earlier, for the service it is cached
    under and with no overrides. *)
Definition CacheSound (st : State) : Prop :=
  ∀ n obj, clientCache st !! n = Some obj →
    (oid obj < nextOid st)%nat
    ∧ ∃ service, JsMap.get n (services st) = Some service
                 ∧ client obj = createHttpClient (clientConfig service None).

(** The state after a sequence of [getClient] calls. *)
Definition afterCalls (calls : list (ServiceKind * option PartialConfig))
    (st : State) : State :=
  foldl (fun s '(k, o) => (getClient k o s).2) st calls.

(** The path probed by [checkHealth]. *)
Definition probePath (service : ServiceConfig) : string :=
  if truthyStr (healthPath service)
  then default DEFAULT_HEALTH_PATH (healthPath service)
  else DEFAULT_HEALTH_PATH.

(** A router call that supplies no header, token or trace id itself. *)
Definition usersCall : RequestOptions := withPathMethod None "/users" GET.

(** An environment that configures go, nestjs and python. *)
Definition threeBackends : gmap string string :=
  {[ "HALOLIGHT_API_GO_URL" := "http://go:8080/";
     "HALOLIGHT_API_NESTJS_URL" := "http://nestjs:3000";
     "HALOLIGHT_API_PYTHON_URL" := "https://api.example.com" ]}.

(** The same without nestjs. *)
Definition twoBackends : gmap string string :=
  {[ "HALOLIGHT_API_GO_URL" := "http://go:8080/";
     "HALOLIGHT_API_PYTHON_URL" := "https://api.example.com" ]}.

End Stated.

(** ** Further notions *)

Module StatedExtra.
Import Js HttpClient ServiceRegistry CreateContext Stated.

(** An attempt after which [request] does not go on: a success or a
    failure that is not retried. *)
Definition isFinal (o : Completion Json) : bool :=
  match o with
  | Normal _ => true
  | Abrupt e => negb (isRetryable e)
  end.

(** The settlement an attempt's completion stands for. *)
Definition settles (o : Completion Json) : Settled :=
  match o with
  | Normal v => Fulfilled v
  | Abrupt e => Rejected (Some e)
  end.

(** The error thrown when [safeParse] fails. *)
Definition validationError : Caught :=
  ThrownTyped {| code := INTERNAL_SERVER_ERROR;
                 message := JStr "Response validation failed";
                 cause := CauseValidation |}.

(** The variable of a kind holds a non-empty value. *)
Definition configured (env : gmap string string) (k : ServiceKind) : bool :=
  truthyStr (env !! ENV_VAR_MAP k).

(** The kinds by ascending [DEFAULT_PRIORITY]. *)
Definition preference : list ServiceKind :=
  [nestjs; python; bun; java; node; go].

(** The configuration [loadServices] builds for a kind. *)
Definition configOf (k : ServiceKind) (url : string) : ServiceConfig :=
  {| name := k; baseUrl := url; healthPath := Some DEFAULT_HEALTH_PATH;
     priority := Some (DEFAULT_PRIORITY k) |}.

(** The transport call [checkHealth] makes for a service. *)
Definition probeCall (service : ServiceConfig) : FetchCall :=
  fetchCall (createHttpClient (clientConfig service None))
    (withPathMethod (Some healthOptions) (probePath service) GET).

(** A string without a space. *)
Fixpoint noSpace (s : string) : bool :=
  match s with
  | EmptyString => true
  | String c rest => negb (bool_decide (c = " "%char)) && noSpace rest
  end.

(** A router call that names neither trace id nor authorisation. *)
Definition plainCall (opts : RequestOptions) : Prop :=
  truthyStr (HttpClient.traceId opts) = false
  ∧ truthyStr (HttpClient.token opts) = false
  ∧ default ∅ (headers opts) !! "X-Trace-Id" = None
  ∧ default ∅ (headers opts) !! "X-Request-Id" = None
  ∧ default ∅ (headers opts) !! "Authorization" = None.

(** A backend answer: 200 with a JSON body. *)
Definition okAnswer : Answer :=
  {| latency := 25;
     outcome := Normal
       {| status := 200;
          contentType := Some "application/json";
          json := Normal (JObj [("status", JStr "ok")]);
          text := EmptyString |} |}.

(** A backend that fails the first call and answers the later ones. *)
Definition failsOnce : Transport :=
  fun k call => if (k =? 0)%nat then alwaysFailing k call else okAnswer.

(** An environment whose python variable is set but empty. *)
Definition emptyPython : gmap string string :=
  {[ "HALOLIGHT_API_PYTHON_URL" := EmptyString;
     "HALOLIGHT_API_GO_URL" := "http://go:8080" ]}.

(** The payload of an administrator's token. *)
Definition admin : Json :=
  JObj [ ("id", JStr "1"); ("name", JStr "root");
         ("email", JStr "root@example.com");
         ("role", JObj [ ("id", JStr "r1"); ("name", JStr "admin");
                         ("label", JStr "Admin");
                         ("permissions", JArr [JStr "*"]) ]);
         ("iat", JNum 1700000000) ].

(** A verifier that accepts one token. *)
Definition acceptsGood : Verifier :=
  fun t _ => if bool_decide (t = "good") then Some admin else None.

(** An inbound request with an unverifiable token under another scheme
    and a request id but no trace id. *)
Definition inbound : Request :=
  {| authorization := Some "Basic abc"; x_trace_id := None;
     x_request_id := Some "rid-7" |}.

Definition inboundGood : Request :=
  {| authorization := Some "Bearer good"; x_trace_id := Some "t-1";
     x_request_id := None |}.

End StatedExtra.

(** ** The embedding at work *)

Module Examples.
Import Js HttpClient ServiceRegistry Stated.

Example sort_is_stable :
  sort (fun a b : Z * string => a.1 - b.1)
    [(3, "a"); (1, "b"); (3, "c"); (1, "d"); (2, "e")]
  = [(1, "b"); (1, "d"); (2, "e"); (3, "a"); (3, "c")].
Proof. reflexivity. Qed.

Example query_is_encoded :
  buildUrl (clientAt "http://x") "/search"
    (Some [("q", QString "a b&c"); ("exact", QBoolean false);
           ("offset", QNumber (-12)); ("lang", QUndefined)])
  = "http://x/search?q=a+b%26c&exact=false&offset=-12".
Proof. reflexivity. Qed.

Example only_one_slash_is_stripped :
  buildUrl (clientAt "http://x//") "users" None = "http://x//users".
Proof. reflexivity. Qed.

Example message_prefers_message_field :
  errorMessage (JObj [("error", JStr "E"); ("message", JStr "M")]) 500 = JStr "M".
Proof. reflexivity. Qed.

Example empty_message_falls_to_error :
  errorMessage (JObj [("message", JStr EmptyString); ("error", JStr "E")]) 500
  = JStr "E".
Proof. reflexivity. Qed.

Example fallback_names_status :
  errorMessage (JArr []) 502 = JStr "Request failed with status 502".
Proof. reflexivity. Qed.

Example empty_text_body_is_the_message :
  errorMessage (JStr EmptyString) 502 = JStr EmptyString.
Proof. reflexivity. Qed.

Example backoff_values :
  map backoffMs [1; 2; 3; 4; 5; 6; 7] = [100; 200; 400; 800; 1600; 2000; 2000].
Proof. reflexivity. Qed.

Example three_backends_loaded :
  JsMap.keys (loadServices threeBackends) = [python; nestjs; go]
  ∧ baseUrl <$> JsMap.values (loadServices threeBackends)
    = ["https://api.example.com"; "http://nestjs:3000"; "http://go:8080"]
  ∧ findDefaultService (loadServices threeBackends) = Some nestjs
  ∧ findDefaultService (loadServices twoBackends) = Some python.
Proof. repeat split; reflexivity. Qed.

Example missing_priority_counts_as_99 :
  findDefaultService
    [ (go, {| name := go; baseUrl := "http://go"; healthPath := None;
              priority := None |});
      (bun, {| name := bun; baseUrl := "http://bun"; healthPath := None;
               priority := Some 99 |});
      (java, {| name := java; baseUrl := "http://java"; healthPath := None;
                priority := Some 100 |}) ]
  = Some go.
Proof. reflexivity. Qed.

Example post_is_not_retried :
  timeline (post alwaysFailing (clientAt "http://x") "/users"
              (Some (JObj [("name", JStr "n")])) None None start).2
  = [ EvFetch (fetchCall (clientAt "http://x")
                 (withPathMethodBody None "/users" POST
                    (Some (JObj [("name", JStr "n")])))) ].
Proof. reflexivity. Qed.

End Examples.

(** ** URL construction *)

Module UrlProps.
Import Js HttpClient Stated.

Lemma endsWithSlash_app_slash b : endsWithSlash (b +:+ "/") = true.
Proof.
  induction b as [|c b IH]; [reflexivity|].
  change (String c b +:+ "/") with (String c (b +:+ "/")).
  cbn [endsWithSlash]. destruct (b +:+ "/") eqn:E; [|exact IH].
  destruct b; discriminate.
Qed.

Lemma sliceInit_app_slash b : sliceInit (b +:+ "/") = b.
Proof.
  induction b as [|c b IH]; [reflexivity|].
  change (String c b +:+ "/") with (String c (b +:+ "/")).
  cbn [sliceInit]. destruct (b +:+ "/") eqn:E.
  - destruct b; discriminate.
  - rewrite IH. reflexivity.
Qed.

Lemma endsWithSlash_split s :
  endsWithSlash s = true → s = sliceInit s +:+ "/".
Proof.
  induction s as [|c s IH]; [discriminate|].
  destruct s as [|c' s].
  - cbn. intros Hc%bool_decide_eq_true_1. by subst c.
  - intros Hs. change (sliceInit (String c (String c' s)))
      with (String c (sliceInit (String c' s))).
    change (String c (sliceInit (String c' s)) +:+ "/")
      with (String c (sliceInit (String c' s) +:+ "/")).
    f_equal. by apply IH.
Qed.

Lemma startsWithSlash_split s :
  startsWithSlash s = true → ∃ p, s = "/" +:+ p.
Proof.
  destruct s as [|c s]; [discriminate|].
  cbn. intros Hc%bool_decide_eq_true_1. subst c. by exists s.
Qed.


Lemma noTrailingSlash_endsWithSlash b :
  noTrailingSlash b → endsWithSlash b = false.
Proof.
  intros Hb. destruct (endsWithSlash b) eqn:E; [|done].
  destruct (Hb (sliceInit b)). by apply endsWithSlash_split.
Qed.

Lemma noLeadingSlash_startsWithSlash p :
  noLeadingSlash p → startsWithSlash p = false.
Proof.
  intros Hp. destruct (startsWithSlash p) eqn:E; [|done].
  destruct (startsWithSlash_split p E) as [p' ->]. by destruct (Hp p').
Qed.

Lemma joinUrl_exact (c : HttpClient) (path b p : string) :
  baseLessSlash (c_baseUrl c) b → pathLessSlash path p →
  joinUrl c path = b +:+ "/" +:+ p.
Proof.
  intros Hb Hp. unfold joinUrl.
  assert (Hbase : (if endsWithSlash (c_baseUrl c) then sliceInit (c_baseUrl c)
                   else c_baseUrl c) = b).
  { destruct Hb as [-> | [-> Hb]].
    - by rewrite endsWithSlash_app_slash, sliceInit_app_slash.
    - by rewrite noTrailingSlash_endsWithSlash. }
  rewrite Hbase. destruct Hp as [-> | [-> Hp]]; [reflexivity|].
  by rewrite noLeadingSlash_startsWithSlash.
Qed.








(** *** Decimal notation *)

Lemma append_assoc (a b c : string) : (a +:+ b) +:+ c = a +:+ b +:+ c.
Proof.
  induction a as [|x a IH]; [reflexivity|].
  change (String x ((a +:+ b) +:+ c) = String x (a +:+ b +:+ c)).
  by rewrite IH.
Qed.

Lemma pretty_N_go_acc (x : N) :
  ∀ s, pretty_N_go x s = pretty_N_go x EmptyString +:+ s.
Proof.
  induction (N.lt_wf_0 x) as [x _ IH]; intros s.
  destruct (decide (x = 0)%N) as [->|Hx]; [by rewrite !pretty_N_go_0|].
  rewrite !(pretty_N_go_step x) by lia.
  assert (Hlt : (x `div` 10 < x)%N) by (apply N.div_lt; lia).
  rewrite (IH _ Hlt (String _ s)), (IH _ Hlt (String _ EmptyString)).
  rewrite append_assoc. reflexivity.
Qed.

Lemma pretty_N_char_digit (d : N) :
  (d < 10)%N → String (pretty_N_char d) EmptyString = digit (Z.of_N d).
Proof.
  intros Hd.
  assert (d = 0 ∨ d = 1 ∨ d = 2 ∨ d = 3 ∨ d = 4 ∨ d = 5 ∨ d = 6 ∨ d = 7
          ∨ d = 8 ∨ d = 9)%N as H by lia.
  repeat (destruct H as [->|H]; [reflexivity|]). subst d. reflexivity.
Qed.

Lemma pretty_N_small (x : N) : (x < 10)%N → pretty x = digit (Z.of_N x).
Proof.
  intros Hx. unfold pretty, pretty_N. case_decide as H0; [by subst x|].
  rewrite pretty_N_go_step by lia.
  rewrite N.div_small, N.mod_small, pretty_N_go_0 by lia.
  by apply pretty_N_char_digit.
Qed.

Lemma pretty_N_large (x : N) :
  (10 ≤ x)%N →
  pretty x = pretty (x `div` 10)%N +:+ digit (Z.of_N (x `mod` 10)%N).
Proof.
  intros Hx. unfold pretty, pretty_N.
  assert (0 < x `div` 10)%N by (apply N.div_str_pos; lia).
  rewrite !decide_False by lia.
  rewrite pretty_N_go_step by lia. rewrite pretty_N_go_acc.
  rewrite pretty_N_char_digit by (apply N.mod_lt; lia). reflexivity.
Qed.

(** [numToString] writes an integer in decimal: one digit below ten,
    the digits of the quotient followed by the last digit from ten on,
    and a minus sign before the digits of a negative number. *)
Lemma numToString_decimal (n : Z) :
  (0 ≤ n < 10 → numToString n = digit n)
  ∧ (10 ≤ n → numToString n = numToString (n `div` 10) +:+ digit (n `mod` 10))
  ∧ (n < 0 → numToString n = "-" +:+ numToString (- n)).
Proof.
  unfold numToString. split; [|split].
  - intros Hn. destruct n as [|p|p]; [reflexivity| |lia].
    change (pretty (Z.pos p)) with (pretty (N.pos p)).
    rewrite pretty_N_small by lia. reflexivity.
  - intros Hn. destruct n as [|p|p]; [lia| |lia].
    change (pretty (Z.pos p)) with (pretty (N.pos p)).
    rewrite pretty_N_large by lia.
    assert (Hq : Z.pos p `div` 10 = Z.of_N (N.pos p `div` 10)).
    { rewrite N2Z.inj_div. reflexivity. }
    assert (Hr : Z.pos p `mod` 10 = Z.of_N (N.pos p `mod` 10)).
    { rewrite N2Z.inj_mod. reflexivity. }
    rewrite Hq, Hr. f_equal.
    destruct (N.pos p `div` 10)%N as [|q] eqn:E; reflexivity.
  - intros Hn. destruct n as [|p|p]; [lia|lia|]. reflexivity.
Qed.




End UrlProps.

(** ** A single attempt: headers and error classification *)

Module FetchProps.
Import Js HttpClient Stated.

Lemma requestHeaders_layers (c : HttpClient) (opts : RequestOptions) :
  requestHeaders c opts
  = mergeInOrder [ baseline; c_defaultHeaders c; default ∅ (headers opts);
                   authLayer (token opts); traceLayer (traceId opts) ].
Proof.
  unfold requestHeaders, mergeInOrder, spread, authLayer, traceLayer, baseline.
  cbn [foldl]. apply map_eq; intros k.
  destruct (token opts) as [[|a t]|], (traceId opts) as [[|b u]|];
    rewrite ?lookup_union, ?lookup_insert, ?lookup_union, ?lookup_insert,
            ?lookup_singleton, ?lookup_empty;
    repeat case_decide; subst; try discriminate;
    destruct (default ∅ (headers opts) !! _), (c_defaultHeaders c !! _);
    reflexivity.
Qed.

Lemma lookup_mergeInOrder5 (l1 l2 l3 l4 l5 : gmap string string) k :
  mergeInOrder [l1; l2; l3; l4; l5] !! k
  = match l5 !! k with Some v => Some v | None =>
    match l4 !! k with Some v => Some v | None =>
    match l3 !! k with Some v => Some v | None =>
    match l2 !! k with Some v => Some v | None => l1 !! k end end end end.
Proof.
  unfold mergeInOrder, spread. cbn [foldl].
  rewrite !lookup_union, lookup_empty.
  by destruct (l5 !! k), (l4 !! k), (l3 !! k), (l2 !! k), (l1 !! k).
Qed.

Lemma requestHeaders_lookup (c : HttpClient) (opts : RequestOptions) k :
  requestHeaders c opts !! k
  = match traceLayer (traceId opts) !! k with Some v => Some v | None =>
    match authLayer (token opts) !! k with Some v => Some v | None =>
    match default ∅ (headers opts) !! k with Some v => Some v | None =>
    match c_defaultHeaders c !! k with Some v => Some v | None =>
    baseline !! k end end end end.
Proof. rewrite requestHeaders_layers. apply lookup_mergeInOrder5. Qed.

(** C3, as the code has it.  The outgoing header map is the result of
    merging, a later layer overriding an earlier one on key collision:
    the baseline [Content-Type: application/json] and
    [Accept: application/json], then the client default headers, then
    the per-call headers, then [Authorization: Bearer <token>] for a
    non-empty token, then [X-Trace-Id] and [X-Request-Id], both set to
    the trace id, for a non-empty trace id.  A default or per-call
    [Content-Type] or [Accept] header therefore survives over the
    baseline; when neither layer names a baseline key the map is the one
    obtained in the order the specification states. *)
Theorem requestHeaders_merge_order (c : HttpClient) (opts : RequestOptions) :
  requestHeaders c opts
  = mergeInOrder [ baseline; c_defaultHeaders c; default ∅ (headers opts);
                   authLayer (token opts); traceLayer (traceId opts) ]
  ∧ (∀ k, requestHeaders c opts !! k
          = match traceLayer (traceId opts) !! k with Some v => Some v | None =>
            match authLayer (token opts) !! k with Some v => Some v | None =>
            match default ∅ (headers opts) !! k with Some v => Some v | None =>
            match c_defaultHeaders c !! k with Some v => Some v | None =>
            baseline !! k end end end end)
  ∧ ((∀ k, is_Some (baseline !! k) →
           c_defaultHeaders c !! k = None ∧ default ∅ (headers opts) !! k = None) →
     requestHeaders c opts = headersInStatedOrder c opts).
Proof.
  split; [apply requestHeaders_layers|]. split.
  - apply requestHeaders_lookup.
  - intros Hfree. apply map_eq; intros k.
    rewrite requestHeaders_layers. unfold headersInStatedOrder.
    rewrite !lookup_mergeInOrder5.
    destruct (baseline !! k) as [v|] eqn:E.
    + destruct (Hfree k) as [-> ->]; [by rewrite E|]. reflexivity.
    + by destruct (traceLayer (traceId opts) !! k),
                  (authLayer (token opts) !! k),
                  (default ∅ (headers opts) !! k), (c_defaultHeaders c !! k).
Qed.

Lemma requestHeaders_merge_order_witness :
  requestHeaders (clientAt "http://x") noOptions
  = headersInStatedOrder (clientAt "http://x") noOptions.
Proof.
  apply (proj2 (proj2 (requestHeaders_merge_order (clientAt "http://x") noOptions))).
  intros k _. split; reflexivity.
Defined.

(** C3, as stated, fails: a per-call [Content-Type] header survives in
    the code, while merging in the stated order lets the baseline
    replace it. *)
Lemma requestHeaders_not_in_stated_order :
  requestHeaders (clientAt "http://x") plainTextCall !! "Content-Type"
    = Some "text/plain"
  ∧ headersInStatedOrder (clientAt "http://x") plainTextCall !! "Content-Type"
    = Some "application/json"
  ∧ requestHeaders (clientAt "http://x") plainTextCall
    ≠ headersInStatedOrder (clientAt "http://x") plainTextCall.
Proof.
  split; [by vm_compute|]. split; [by vm_compute|].
  intros H. apply (f_equal (fun m => m !! "Content-Type")) in H.
  vm_compute in H. discriminate H.
Qed.


(** *** Error classification *)

Lemma mapHttpStatus_other (s : Z) :
  s ∉ [400; 401; 403; 404; 408; 504] →
  mapHttpStatusToTRPCCode s = INTERNAL_SERVER_ERROR.
Proof.
  intros Hs. unfold mapHttpStatusToTRPCCode.
  repeat (match goal with
          | |- context [match ?x with _ => _ end] => destruct x
          end; try reflexivity);
    exfalso; apply Hs; set_solver.
Qed.

Lemma catchClause_typed (t : Caught) : ∃ e, catchClause t = ThrownTyped e.
Proof.
  destruct t as [e|name msg|name]; cbn; [by eexists| |];
    case_bool_decide; by eexists.
Qed.

Lemma catchClause_code (t : Caught) (e : TRPCError) :
  isTyped t = false → catchClause t = ThrownTyped e →
  code e = if isAbort t then TIMEOUT else INTERNAL_SERVER_ERROR.
Proof.
  destruct t as [e'|name msg|name]; cbn; [discriminate| |];
    intros _; case_bool_decide; intros [= <-]; reflexivity.
Qed.

Lemma doFetch_in_time (c : HttpClient) (opts : RequestOptions)
    (schema : option Schema) (a : Answer) :
  latency a < f_deadline (fetchCall c opts) →
  doFetch c opts schema a
  = match (match outcome a with
           | Abrupt t => Abrupt t
           | Normal response => handleResponse schema response
           end) with
    | Normal v => Normal v
    | Abrupt error => Abrupt (catchClause error)
    end.
Proof.
  intros Hlt. unfold doFetch, awaitResponse.
  destruct (Z.leb_spec (f_deadline (fetchCall c opts)) (latency a)); [lia|].
  reflexivity.
Qed.

Lemma errorMessage_cases (raw : Json) (n : Z) :
  (∀ s, raw = JStr s → errorMessage raw n = JStr s)
  ∧ (∀ m, isString raw = false → prop "message" raw = Some m →
          truthy (Some m) = true → errorMessage raw n = m)
  ∧ (∀ e, isString raw = false → truthy (prop "message" raw) = false →
          prop "error" raw = Some e → truthy (Some e) = true →
          errorMessage raw n = e)
  ∧ (isString raw = false → truthy (prop "message" raw) = false →
     truthy (prop "error" raw) = false →
     errorMessage raw n
     = JStr ("Request failed with status " +:+ numToString n)).
Proof.
  split; [by intros s ->|].
  assert (Hunf : isString raw = false →
            errorMessage raw n
            = orValue (orElse (prop "message" raw) (prop "error" raw))
                (JStr ("Request failed with status " +:+ numToString n))).
  { by destruct raw. }
  split; [|split].
  - intros m Hs Hm Ht. rewrite Hunf by done. unfold orElse, orValue.
    rewrite Hm, Ht. by rewrite Ht.
  - intros e Hs Hm He Ht. rewrite Hunf by done. unfold orElse, orValue.
    rewrite Hm, He. by rewrite Ht.
  - intros Hs Hm He. rewrite Hunf by done. unfold orElse, orValue.
    rewrite Hm. destruct (prop "error" raw) eqn:E; [|done]. by rewrite He.
Qed.

(** *** Reading the body and the message chain *)

Lemma substring_prefix (t post : string) :
  substring 0 (String.length t) (t +:+ post) = t.
Proof.
  induction t as [|c t IH]; [by destruct post|].
  change (String c (substring 0 (String.length t) (t +:+ post)) = String c t).
  by rewrite IH.
Qed.

Lemma substring_middle (pre t post : string) :
  substring (String.length pre) (String.length t) (pre +:+ t +:+ post) = t.
Proof.
  induction pre as [|c pre IH]; [exact (substring_prefix t post)|exact IH].
Qed.

Lemma substring_whole_prefix k : ∀ s t,
  substring 0 k s = t → String.length t = k → ∃ post, s = t +:+ post.
Proof.
  induction k as [|k IH]; intros s t Hs Hl.
  - destruct t; [|discriminate]. by exists s.
  - destruct s as [|c s]; cbn in Hs; [subst t; discriminate|].
    subst t. cbn in Hl. injection Hl as Hl.
    destruct (IH s _ eq_refl Hl) as [post Hpost]. exists post.
    change (String c s = String c (substring 0 k s +:+ post)).
    by rewrite <- Hpost.
Qed.

Lemma substring_whole m : ∀ k s t,
  substring m k s = t → String.length t = k → contains t s.
Proof.
  induction m as [|m IH]; intros k s t Hs Hl.
  - destruct (substring_whole_prefix k s t Hs Hl) as [post ->].
    by exists EmptyString, post.
  - destruct s as [|c s]; cbn in Hs.
    + subst t. by exists EmptyString, EmptyString.
    + destruct (IH k s t Hs Hl) as (pre & post & ->).
      by exists (String c pre), post.
Qed.

Lemma includes_contains (sub s : string) :
  sub ≠ EmptyString → (includes sub s = true ↔ contains sub s).
Proof.
  intros Hne. unfold includes. split.
  - destruct (index 0 sub s) as [m|] eqn:E; [intros _|discriminate].
    apply index_correct1 in E. by apply (substring_whole m (String.length sub)).
  - intros (pre & post & ->).
    destruct (index 0 sub (pre +:+ sub +:+ post)) as [m|] eqn:E; [done|].
    exfalso. apply (index_correct3 0 (String.length pre)) in E; [|done|lia].
    apply E, substring_middle.
Qed.

Lemma readBody_bodyRead (r : Response) (body : Completion Json) :
  bodyRead r body → readBody r = body.
Proof.
  intros [ct Hct Hjson | Htext]; unfold readBody; cbv zeta.
  - rewrite Hct. change (default EmptyString (Some ct)) with ct.
    by rewrite (proj2 (includes_contains "application/json" ct ltac:(done)) Hjson).
  - destruct (contentType r) as [ct|] eqn:Hct; [|reflexivity].
    change (default EmptyString (Some ct)) with ct.
    destruct (includes "application/json" ct) eqn:E; [|reflexivity].
    destruct (Htext ct eq_refl).
    by apply (includes_contains "application/json" ct).
Qed.

Lemma ok_success (r : Response) : ok r = true ↔ success r.
Proof. unfold ok, success. rewrite andb_true_iff, !Z.leb_le. done. Qed.

Lemma ok_failure (r : Response) : ¬ success r → ok r = false.
Proof.
  intros Hr. destruct (ok r) eqn:E; [|done]. by apply ok_success in E.
Qed.

Lemma deadline_default (c : HttpClient) (opts : RequestOptions) :
  f_deadline (fetchCall c opts) = default (c_timeoutMs c) (timeoutMs opts).
Proof. cbn. by destruct (timeoutMs opts). Qed.

Lemma hasField_prop k raw v : hasField k raw v → prop k raw = Some v.
Proof.
  intros [before v' after Hk]. cbn.
  induction before as [|[k' w] before IH]; cbn.
  - by rewrite bool_decide_eq_true_2.
  - rewrite fmap_cons in Hk. apply not_elem_of_cons in Hk as [Hne Hk].
    rewrite bool_decide_eq_false_2 by (cbn in Hne; congruence). by apply IH.
Qed.

Lemma field_split k fields v :
  field k fields = Some v →
  ∃ before after, fields = before ++ (k, v) :: after ∧ k ∉ before.*1.
Proof.
  induction fields as [|[k' w] fields IH]; cbn; [discriminate|].
  case_bool_decide as Hk.
  - intros [= ->]. subst k'. exists [], fields. split; [done|].
    apply not_elem_of_nil.
  - intros Hv. destruct (IH Hv) as (before & after & -> & Hbefore).
    exists ((k', w) :: before), after. split; [done|].
    rewrite fmap_cons. apply not_elem_of_cons. split; [cbn; congruence|done].
Qed.

Lemma prop_hasField k raw v : prop k raw = Some v → hasField k raw v.
Proof.
  destruct raw as [| | | | |fields]; try discriminate. cbn. intros Hv.
  destruct (field_split k fields v Hv) as (before & after & -> & Hbefore).
  by constructor.
Qed.

Lemma truthy_falsy v : truthy (Some v) = false ↔ falsy v.
Proof.
  unfold falsy. split.
  - destruct v as [|[]|[]|[]| |]; cbn; try discriminate; auto.
  - intros [->|[->|[->| ->]]]; reflexivity.
Qed.

Lemma unusable_truthy k raw : unusable k raw → truthy (prop k raw) = false.
Proof.
  intros Hk. destruct (prop k raw) as [v|] eqn:E; [|reflexivity].
  by apply truthy_falsy, Hk, prop_hasField.
Qed.

Lemma usable_truthy k raw v :
  usable k raw v →
  isString raw = false ∧ prop k raw = Some v ∧ truthy (Some v) = true.
Proof.
  intros [Hv Hfalsy]. split; [by destruct Hv|].
  split; [by apply hasField_prop|].
  destruct (truthy (Some v)) eqn:E; [done|]. by apply truthy_falsy in E.
Qed.

Lemma errorMessage_chain (raw : Json) (n : Z) :
  (∀ s, raw = JStr s → errorMessage raw n = JStr s)
  ∧ (∀ m, usable "message" raw m → errorMessage raw n = m)
  ∧ (∀ e, unusable "message" raw → usable "error" raw e →
          errorMessage raw n = e)
  ∧ ((∀ s, raw ≠ JStr s) → unusable "message" raw → unusable "error" raw →
     errorMessage raw n
     = JStr ("Request failed with status " +:+ numToString n)).
Proof.
  destruct (errorMessage_cases raw n) as (H1 & H2 & H3 & H4).
  split; [exact H1|]. split; [|split].
  - intros m (Hs & Hm & Ht)%usable_truthy. by apply H2.
  - intros e Hm (Hs & He & Ht)%usable_truthy.
    apply H3; [done|by apply unusable_truthy|done|done].
  - intros Hs Hm He. apply H4; [|by apply unusable_truthy..].
    destruct raw; try reflexivity. by destruct (Hs s).
Qed.

(** C2, as the code has it.  Every failure of a single attempt is a
    typed error.  For a response outside the success range whose body
    could be read, as JSON when the content type names
    [application/json] and as text otherwise, the kind follows the
    status: 400, 401, 403 and 404 give bad-request, unauthorized,
    forbidden and not-found, 408 and 504 give timeout and every other
    status gives internal; the message is the body itself when it is a
    string, be it empty, otherwise the body's [message] field unless
    absent or falsy, else its [error] field unless absent or falsy, else
    "Request failed with status N" with [N] in decimal.  A call still
    pending when the deadline expires, and any aborted call, yields
    timeout; a schema validation failure and any other exception raised
    by the transport or by reading the body, whatever the status,
    yields internal. *)
Theorem doFetch_error_classification :
  (mapHttpStatusToTRPCCode 400 = BAD_REQUEST
   ∧ mapHttpStatusToTRPCCode 401 = UNAUTHORIZED
   ∧ mapHttpStatusToTRPCCode 403 = FORBIDDEN
   ∧ mapHttpStatusToTRPCCode 404 = NOT_FOUND
   ∧ mapHttpStatusToTRPCCode 408 = TIMEOUT
   ∧ mapHttpStatusToTRPCCode 504 = TIMEOUT
   ∧ ∀ s, s ∉ [400; 401; 403; 404; 408; 504] →
          mapHttpStatusToTRPCCode s = INTERNAL_SERVER_ERROR)
  ∧ (∀ c opts schema a,
       (∃ v, doFetch c opts schema a = Normal v)
       ∨ (∃ e, doFetch c opts schema a = Abrupt (ThrownTyped e)))
  ∧ (∀ c opts schema a r raw,
       inTime c opts a → outcome a = Normal r →
       bodyRead r (Normal raw) → ¬ success r →
       doFetch c opts schema a
       = Abrupt (ThrownTyped
           {| code := mapHttpStatusToTRPCCode (status r);
              message := errorMessage raw (status r);
              cause := CauseResponse (status r) raw |}))
  ∧ (∀ raw n,
       (∀ s, raw = JStr s → errorMessage raw n = JStr s)
       ∧ (∀ m, usable "message" raw m → errorMessage raw n = m)
       ∧ (∀ e, unusable "message" raw → usable "error" raw e →
               errorMessage raw n = e)
       ∧ ((∀ s, raw ≠ JStr s) →
          unusable "message" raw → unusable "error" raw →
          errorMessage raw n
          = JStr ("Request failed with status " +:+ numToString n)))
  ∧ (∀ n : Z,
       (0 ≤ n < 10 → numToString n = digit n)
       ∧ (10 ≤ n →
          numToString n = numToString (n `div` 10) +:+ digit (n `mod` 10))
       ∧ (n < 0 → numToString n = "-" +:+ numToString (- n)))
  ∧ (∀ c opts schema a,
       ¬ inTime c opts a →
       ∃ e, doFetch c opts schema a = Abrupt (ThrownTyped e) ∧ code e = TIMEOUT)
  ∧ (∀ c opts schema a t,
       inTime c opts a →
       (outcome a = Abrupt t
        ∨ ∃ r, outcome a = Normal r ∧ bodyRead r (Abrupt t)) →
       isTyped t = false →
       ∃ e, doFetch c opts schema a = Abrupt (ThrownTyped e)
            ∧ code e = if isAbort t then TIMEOUT else INTERNAL_SERVER_ERROR)
  ∧ (∀ c opts (safeParse : Schema) a r raw,
       inTime c opts a → outcome a = Normal r →
       bodyRead r (Normal raw) → success r →
       safeParse raw = None →
       ∃ e, doFetch c opts (Some safeParse) a = Abrupt (ThrownTyped e)
            ∧ code e = INTERNAL_SERVER_ERROR)
  ∧ errorMessage (JObj [("error", JStr "E"); ("message", JStr "M")]) 500
    = JStr "M"
  ∧ errorMessage (JObj [("message", JStr EmptyString); ("error", JStr "E")]) 500
    = JStr "E"
  ∧ errorMessage (JObj [("code", JNum 7)]) 502
    = JStr "Request failed with status 502"
  ∧ doFetch (clientAt "http://x") (withPathMethod None "/users/7" GET) None
      emptyBadGateway
    = Abrupt (ThrownTyped
        {| code := INTERNAL_SERVER_ERROR; message := JStr EmptyString;
           cause := CauseResponse 502 (JStr EmptyString) |}).
Proof.
  split; [repeat split; try reflexivity; apply mapHttpStatus_other|].
  split.
  { intros c opts schema a. unfold doFetch.
    destruct (match awaitResponse (fetchCall c opts) a with
              | Normal response => handleResponse schema response
              | Abrupt t => Abrupt t
              end) as [v|t]; [left; by eexists|right].
    destruct (catchClause_typed t) as [e ->]. by eexists. }
  split.
  { intros c opts schema a r raw Hlt Ha Hraw Hok.
    rewrite doFetch_in_time by (by rewrite deadline_default).
    rewrite Ha. unfold handleResponse.
    rewrite (readBody_bodyRead _ _ Hraw), (ok_failure _ Hok). reflexivity. }
  split; [apply errorMessage_chain|].
  split; [apply UrlProps.numToString_decimal|].
  split.
  { intros c opts schema a Hle. unfold doFetch, awaitResponse.
    rewrite deadline_default. unfold inTime in Hle.
    destruct (Z.leb_spec (default (c_timeoutMs c) (timeoutMs opts)) (latency a));
      [|lia].
    cbn. by eexists. }
  split.
  { intros c opts schema a t Hlt Ht Hty.
    destruct (catchClause_typed t) as [e He]. exists e.
    split; [|by apply catchClause_code].
    rewrite doFetch_in_time by (by rewrite deadline_default).
    destruct Ht as [-> | (r & -> & Hr)]; [by rewrite He|].
    unfold handleResponse. rewrite (readBody_bodyRead _ _ Hr). by rewrite He. }
  split; [|by vm_compute].
  intros c opts safeParse a r raw Hlt Ha Hraw Hok Hparse.
  rewrite doFetch_in_time by (by rewrite deadline_default).
  rewrite Ha. unfold handleResponse.
  rewrite (readBody_bodyRead _ _ Hraw), (proj2 (ok_success r) Hok), Hparse.
  cbn. by eexists.
Qed.

Lemma doFetch_error_classification_witness :
  doFetch (clientAt "http://x") (withPathMethod None "/users/7" GET) None
    notFoundAnswer
  = Abrupt (ThrownTyped
      {| code := NOT_FOUND; message := JStr "No such user";
         cause := CauseResponse 404 (JObj [("message", JStr "No such user")]) |}).
Proof.
  refine (proj1 (proj2 (proj2 doFetch_error_classification))
            (clientAt "http://x") (withPathMethod None "/users/7" GET) None
            notFoundAnswer
            {| status := 404;
               contentType := Some "application/json; charset=utf-8";
               json := Normal (JObj [("message", JStr "No such user")]);
               text := EmptyString |}
            (JObj [("message", JStr "No such user")]) _ _ _ _).
  - by vm_compute.
  - reflexivity.
  - apply (read_json
             {| status := 404;
                contentType := Some "application/json; charset=utf-8";
                json := Normal (JObj [("message", JStr "No such user")]);
                text := EmptyString |}
             "application/json; charset=utf-8"); [reflexivity|].
    exists EmptyString, "; charset=utf-8". reflexivity.
  - unfold success. cbn. lia.
Defined.

(** C2, as stated, fails on two counts.  A 404 whose body announces
    JSON and is not gives internal, not not-found: the kind follows the
    status only once the body has been read.  And an empty text body is
    the message, where the stated chain falls through to the
    fallback. *)
Lemma doFetch_kind_needs_readable_body :
  doFetch (clientAt "http://x") (withPathMethod None "/users/7" GET) None
    garbledNotFound
  = Abrupt (ThrownTyped
      {| code := INTERNAL_SERVER_ERROR;
         message := JStr "Unexpected token < in JSON at position 0";
         cause := CauseCaught (Some "SyntaxError")
                    (Some "Unexpected token < in JSON at position 0") |})
  ∧ mapHttpStatusToTRPCCode 404 = NOT_FOUND
  ∧ doFetch (clientAt "http://x") (withPathMethod None "/users/7" GET) None
      emptyBadGateway
    = Abrupt (ThrownTyped
        {| code := INTERNAL_SERVER_ERROR; message := JStr EmptyString;
           cause := CauseResponse 502 (JStr EmptyString) |})
  ∧ JStr EmptyString ≠ JStr "Request failed with status 502".
Proof. repeat split; try reflexivity. discriminate. Qed.

End FetchProps.

(** ** The retry loop *)

Module RetryProps.
Import Js HttpClient Stated.

Lemma attempts_unfold net c options schema maxA attempt lastError w :
  attempts net c options schema maxA attempt lastError w
  = if decide (attempt <= maxA) then
      match awaitDoFetch net c options schema w with
      | (Normal v, w1) => (Fulfilled v, w1)
      | (Abrupt error, w1) =>
          if bool_decide (attempt = maxA) || negb (isRetryable error)
             || negb (isIdempotent options)
          then (Rejected (Some error), w1)
          else attempts net c options schema maxA (attempt + 1)
                 (Some error) (sleep (backoffMs attempt) w1)
      end
    else (Rejected lastError, w).
Proof.
  rewrite attempts_equation_1.
  destruct (decide (attempt <= maxA)); reflexivity.
Qed.

Lemma backoffMs_delayBefore a : backoffMs a = delayBefore (a + 1).
Proof. unfold backoffMs, delayBefore. do 3 f_equal. lia. Qed.

Ltac run_facts := split_and!; try done; try lia; try (intros; lia); auto.

Section Run.
Variables (net : Transport) (c : HttpClient) (opts : RequestOptions).
Variables (schema : option Schema) (maxA : Z).

Lemma attempts_run (m : nat) : ∀ (a : Z) lastError w,
  maxA - a = Z.of_nat m →
  ∃ n : nat,
    (1 ≤ n ≤ m + 1)%nat
    ∧ sent (attempts net c opts schema maxA a lastError w).2 = (sent w + n)%nat
    ∧ log (attempts net c opts schema maxA a lastError w).2
      = reverse (scheduleFrom (fetchCall c opts) a n) ++ log w
    ∧ (∀ k, (S k < n)%nat →
         isIdempotent opts = true
         ∧ ∃ e, attemptAt net c opts schema (sent w + k) = Abrupt e
                ∧ isRetryable e = true)
    ∧ match attemptAt net c opts schema (sent w + n - 1) with
      | Normal v => (attempts net c opts schema maxA a lastError w).1 = Fulfilled v
      | Abrupt e =>
          (attempts net c opts schema maxA a lastError w).1 = Rejected (Some e)
          ∧ (n = S m ∨ isRetryable e = false ∨ isIdempotent opts = false)
      end.
Proof.
  induction m as [|m IH]; intros a lastError w Hm.
  - rewrite attempts_unfold. rewrite decide_True by lia.
    exists 1%nat. unfold awaitDoFetch.
    replace (sent w + 1 - 1)%nat with (sent w) by lia.
    unfold attemptAt.
    destruct (doFetch c opts schema (net (sent w) (fetchCall c opts)))
      as [v|e] eqn:E.
    + cbn. run_facts.
    + rewrite bool_decide_eq_true_2 by lia. cbn.
      run_facts.
  - rewrite attempts_unfold. rewrite decide_True by lia.
    unfold awaitDoFetch.
    destruct (doFetch c opts schema (net (sent w) (fetchCall c opts)))
      as [v|e] eqn:E.
    + exists 1%nat. cbn. replace (sent w + 1 - 1)%nat with (sent w) by lia.
      unfold attemptAt. rewrite E.
      run_facts.
    + rewrite bool_decide_eq_false_2 by lia. cbn [orb].
      destruct (isRetryable e) eqn:Er; cbn [negb orb].
      2:{ exists 1%nat. cbn. replace (sent w + 1 - 1)%nat with (sent w) by lia.
          unfold attemptAt. rewrite E.
          run_facts. }
      destruct (isIdempotent opts) eqn:Ei; cbn [negb].
      2:{ exists 1%nat. cbn. replace (sent w + 1 - 1)%nat with (sent w) by lia.
          unfold attemptAt. rewrite E.
          run_facts. }
      set (w1 := sleep _ _).
      destruct (IH (a + 1) (Some e) w1 ltac:(lia))
        as (n & Hn & Hsent & Hlog & Hprev & Hlast).
      exists (S n). split; [lia|]. split; [rewrite Hsent; cbn; lia|].
      split.
      { rewrite Hlog. cbn [scheduleFrom]. destruct n as [|n]; [lia|].
        rewrite !reverse_cons. subst w1. cbn [log sleep].
        rewrite backoffMs_delayBefore. rewrite <- !app_assoc. reflexivity. }
      split.
      { intros k Hk. split; [done|]. destruct k as [|k].
        - exists e. replace (sent w + 0)%nat with (sent w) by lia.
          unfold attemptAt. by rewrite E.
        - destruct (Hprev k ltac:(lia)) as [_ Hp].
          replace (sent w + S k)%nat with (sent w1 + k)%nat
            by (subst w1; cbn; lia).
          exact Hp. }
      replace (sent w + S n - 1)%nat with (sent w1 + n - 1)%nat
        by (subst w1; cbn; lia).
      destruct (attemptAt net c opts schema (sent w1 + n - 1)); [done|].
      destruct Hlast as [-> Hl]. split; [done|].
      destruct Hl as [->|[?|?]]; auto.
Qed.

Lemma scheduleFrom_head call a n : scheduleFrom call a (S n) !! 0%nat = Some (EvFetch call).
Proof. reflexivity. Qed.

Lemma scheduleFrom_at call (n : nat) : ∀ (a : Z) (j : nat),
  (1 ≤ j < n)%nat →
  scheduleFrom call a n !! (2 * j - 1)%nat
    = Some (EvSleep (delayBefore (a + Z.of_nat j)))
  ∧ scheduleFrom call a n !! (2 * j)%nat = Some (EvFetch call).
Proof.
  induction n as [|n IH]; intros a j Hj; [lia|].
  destruct n as [|n]; [lia|].
  change (scheduleFrom call a (S (S n)))
    with (EvFetch call :: EvSleep (delayBefore (a + 1))
            :: scheduleFrom call (a + 1) (S n)).
  destruct (decide (j = 1%nat)) as [->|Hne].
  - split; reflexivity.
  - destruct (IH (a + 1) (j - 1)%nat ltac:(lia)) as [H1 H2].
    replace (2 * j - 1)%nat with (S (S (2 * (j - 1) - 1))) by lia.
    replace (2 * j)%nat with (S (S (2 * (j - 1)))) by lia.
    cbn [lookup list_lookup]. split; [|exact H2].
    etransitivity; [exact H1|]. do 3 f_equal. lia.
Qed.

End Run.

(** A negative retry count leaves the loop no iteration: nothing is
    sent and [undefined] is thrown. *)
Lemma request_negative_retries net c opts schema w :
  nullish (retries opts) (c_retries c) < 0 →
  request net c opts schema w = (Rejected None, w).
Proof.
  intros Hneg. unfold request, maxAttempts.
  rewrite attempts_unfold. by rewrite decide_False by lia.
Qed.

Lemma method_not_both (m : HttpMethod) :
  m ∈ [POST; PATCH] → m ∈ [GET; PUT; DELETE] → False.
Proof.
  intros H1%(bool_decide_pack _) H2%(bool_decide_pack _).
  destruct m; vm_compute in H1, H2; contradiction.
Qed.

Lemma code_not_both (k : TRPCCode) :
  k ∈ [BAD_REQUEST; UNAUTHORIZED; FORBIDDEN; NOT_FOUND] →
  k ∈ [TIMEOUT; INTERNAL_SERVER_ERROR] → False.
Proof.
  intros H1%(bool_decide_pack _) H2%(bool_decide_pack _).
  destruct k; vm_compute in H1, H2; contradiction.
Qed.

(** C1. With a retry count [r >= 0] (the per-call value, else the
    client default), [request] runs its attempts one after the other:
    at least one and at most [r + 1], the wait before attempt [N >= 2]
    being [min(100 * 2^(N-2), 2000)] ms.  It runs exactly [r + 1] when
    the method is GET, PUT or DELETE and every attempt fails with kind
    timeout or internal; exactly one when the method is POST or PATCH,
    when the first failure is bad-request, unauthorized, forbidden or
    not-found, or when [r = 0].  The promise settles as the last attempt
    did: a failure is rethrown as it was caught. *)
Theorem request_retry_policy (net : Transport) (c : HttpClient)
    (opts : RequestOptions) (schema : option Schema) (w : World) :
  let r := nullish (retries opts) (c_retries c) in
  let call := fetchCall c opts in
  let settled := (request net c opts schema w).1 in
  let w' := (request net c opts schema w).2 in
  let n := executions w w' in
  0 ≤ r →
  1 ≤ Z.of_nat n ≤ r + 1
  ∧ timeline w' = timeline w ++ schedule call n
  ∧ (∀ N : nat, (2 ≤ N ≤ n)%nat →
       schedule call n !! (2 * N - 3)%nat
         = Some (EvSleep (Z.min (100 * 2 ^ (Z.of_nat N - 2)) 2000))
       ∧ schedule call n !! (2 * N - 2)%nat = Some (EvFetch call))
  ∧ (default GET (method opts) ∈ [GET; PUT; DELETE] →
     (∀ k, (k < Z.to_nat (r + 1))%nat →
        ∃ e, attemptAt net c opts schema (sent w + k) = Abrupt (ThrownTyped e)
             ∧ code e ∈ [TIMEOUT; INTERNAL_SERVER_ERROR]) →
     Z.of_nat n = r + 1)
  ∧ (default GET (method opts) ∈ [POST; PATCH] → n = 1%nat)
  ∧ ((∃ e, attemptAt net c opts schema (sent w) = Abrupt (ThrownTyped e)
           ∧ code e ∈ [BAD_REQUEST; UNAUTHORIZED; FORBIDDEN; NOT_FOUND]) →
     n = 1%nat)
  ∧ (r = 0 → n = 1%nat)
  ∧ match attemptAt net c opts schema (sent w + n - 1) with
    | Normal v => settled = Fulfilled v
    | Abrupt e => settled = Rejected (Some e)
    end.
Proof.
  intros r call settled w' n Hr.
  destruct (attempts_run net c opts schema (maxAttempts c opts) (Z.to_nat r)
              1 None w) as (n' & Hn & Hsent & Hlog & Hprev & Hlast).
  { unfold maxAttempts. fold r. lia. }
  fold (request net c opts schema w) in Hsent, Hlog, Hlast.
  fold w' in Hsent, Hlog. fold settled in Hlast. fold call in Hlog.
  assert (n = n') as Hnn by (unfold n, executions; lia).
  rewrite <- Hnn in *. clear Hnn n'.
  split; [lia|]. split.
  { unfold timeline. rewrite Hlog, reverse_app, reverse_involutive. done. }
  split.
  { intros N HN.
    destruct (scheduleFrom_at call n 1 (N - 1)%nat ltac:(lia)) as [H1 H2].
    replace (2 * N - 3)%nat with (2 * (N - 1) - 1)%nat by lia.
    replace (2 * N - 2)%nat with (2 * (N - 1))%nat by lia.
    unfold schedule. rewrite H1, H2. split; [|done].
    unfold delayBefore.
    by replace (1 + Z.of_nat (N - 1) - 2) with (Z.of_nat N - 2) by lia. }
  split.
  { intros Hidem Hall.
    destruct (Hall (n - 1)%nat ltac:(lia)) as (e & He & Hcode).
    replace (sent w + (n - 1))%nat with (sent w + n - 1)%nat in He by lia.
    rewrite He in Hlast. destruct Hlast as [_ [->|[Hf|Hf]]]; [lia| |].
    - cbn in Hf. by rewrite bool_decide_eq_true_2 in Hf.
    - unfold isIdempotent in Hf. by rewrite bool_decide_eq_true_2 in Hf. }
  split.
  { intros Hm. destruct (decide (n = 1%nat)) as [|Hne]; [done|].
    destruct (Hprev 0%nat ltac:(lia)) as [Hidem _].
    unfold isIdempotent in Hidem. apply bool_decide_eq_true_1 in Hidem.
    destruct (method_not_both _ Hm Hidem). }
  split.
  { intros (e & He & Hcode). destruct (decide (n = 1%nat)) as [|Hne]; [done|].
    destruct (Hprev 0%nat ltac:(lia)) as [_ (e' & He' & Hre)].
    replace (sent w + 0)%nat with (sent w) in He' by lia.
    rewrite He in He'. injection He' as <-. cbn in Hre.
    apply bool_decide_eq_true_1 in Hre.
    destruct (code_not_both _ Hcode Hre). }
  split; [intros Hr0; lia|].
  destruct (attemptAt net c opts schema (sent w + n - 1)); [done|].
  by destruct Hlast.
Qed.

Lemma request_retry_policy_witness :
  0 ≤ nullish (retries (withPathMethod None "/users" GET))
        (c_retries (clientAt "http://x"))
  ∧ Z.of_nat (executions start
       (request alwaysFailing (clientAt "http://x")
          (withPathMethod None "/users" GET) None start).2) = 3
  ∧ timeline (request alwaysFailing (clientAt "http://x")
                (withPathMethod None "/users" GET) None start).2
    = [ EvFetch (fetchCall (clientAt "http://x") (withPathMethod None "/users" GET));
        EvSleep 100;
        EvFetch (fetchCall (clientAt "http://x") (withPathMethod None "/users" GET));
        EvSleep 200;
        EvFetch (fetchCall (clientAt "http://x") (withPathMethod None "/users" GET)) ].
Proof.
  split; [by vm_compute|].
  pose proof (request_retry_policy alwaysFailing (clientAt "http://x")
                (withPathMethod None "/users" GET) None start) as H.
  cbv zeta in H. destruct H as (_ & _ & _ & Hall & _); [by vm_compute|].
  split; [|by vm_compute].
  apply Hall.
  - apply (bool_decide_unpack _). reflexivity.
  - intros k _. eexists. split; [reflexivity|].
    apply (bool_decide_unpack _). reflexivity.
Defined.

End RetryProps.

(** ** The service registry *)

Module RegistryProps.
Import Js HttpClient ServiceRegistry Stated.

Section JsMapFacts.
Context {K V : Type} `{EqDecision K}.
Implicit Types (m : list (K * V)).

Lemma get_set k v n m :
  JsMap.get n (JsMap.set k v m) = if decide (k = n) then Some v else JsMap.get n m.
Proof.
  induction m as [|[k' v'] m IH]; cbn.
  - by destruct (decide (k = n)).
  - destruct (decide (k' = k)) as [->|Hne]; cbn.
    + by destruct (decide (k = n)).
    + rewrite IH. destruct (decide (k' = n)) as [->|]; [|done].
      by rewrite decide_False.
Qed.

Lemma get_is_Some n m : is_Some (JsMap.get n m) ↔ n ∈ JsMap.keys m.
Proof.
  unfold JsMap.keys. induction m as [|[k v] m IH]; cbn.
  - split; [by intros [? ?]|]. by intros ?%not_elem_of_nil.
  - destruct (decide (k = n)) as [->|Hne].
    + split; [intros _; left|by eexists].
    + rewrite IH. split; [by right|]. intros [?|?]%elem_of_cons; [congruence|done].
Qed.

Lemma set_Forall (P : K * V → Prop) k v m :
  Forall P m → P (k, v) → Forall P (JsMap.set k v m).
Proof.
  induction 1 as [|[k' v'] m Hx Hm IH]; intros Hkv; cbn; [by repeat constructor|].
  destruct (decide (k' = k)); constructor; auto.
Qed.
End JsMapFacts.

Lemma loadStep_get env n kinds : ∀ acc,
  NoDup kinds →
  JsMap.get n (foldl (loadStep env) acc kinds)
  = if decide (n ∈ kinds) then
      match loadedConfig env n with Some cfg => Some cfg | None => JsMap.get n acc end
    else JsMap.get n acc.
Proof.
  induction kinds as [|k kinds IH]; intros acc Hnd.
  - cbn. rewrite decide_False by apply not_elem_of_nil. done.
  - apply NoDup_cons in Hnd as [Hk Hnd]. cbn [foldl]. rewrite IH by done.
    destruct (decide (n ∈ kinds)) as [Hin|Hnin].
    + rewrite decide_True by (by right).
      destruct (loadedConfig env n); [done|].
      unfold loadStep. destruct (env !! ENV_VAR_MAP k) as [[|]|]; try done.
      rewrite get_set. rewrite decide_False; [done|]. intros ->. done.
    + destruct (decide (n = k)) as [->|Hne].
      * rewrite decide_True by left. unfold loadStep, loadedConfig.
        destruct (env !! ENV_VAR_MAP k) as [[|]|]; try done.
        rewrite get_set. by rewrite decide_True.
      * rewrite decide_False by (intros [?|?]%elem_of_cons; done).
        unfold loadStep. destruct (env !! ENV_VAR_MAP k) as [[|]|]; try done.
        rewrite get_set. by rewrite decide_False.
Qed.

Lemma loadServices_get env n : JsMap.get n (loadServices env) = loadedConfig env n.
Proof.
  unfold loadServices. fold (loadStep env). rewrite loadStep_get.
  - rewrite decide_True; [by destruct (loadedConfig env n)|].
    destruct n; apply (bool_decide_unpack _); reflexivity.
  - apply (bool_decide_unpack _). reflexivity.
Qed.

Lemma loadServices_names env :
  Forall (fun p : ServiceKind * ServiceConfig => name p.2 = p.1) (loadServices env).
Proof.
  unfold loadServices. generalize ENV_VAR_MAP_keys.
  assert (Forall (fun p : ServiceKind * ServiceConfig => name p.2 = p.1) []) as H by constructor.
  revert H. generalize (@nil (ServiceKind * ServiceConfig)).
  intros acc Hacc kinds. revert acc Hacc.
  induction kinds as [|k kinds IH]; intros acc Hacc; cbn [foldl]; [done|].
  apply IH. destruct (env !! ENV_VAR_MAP k) as [[|]|]; try done.
  by apply set_Forall.
Qed.

Lemma byPriority_pos a b : (0 <? byPriority a b) = true ↔ effPriority b < effPriority a.
Proof. unfold byPriority, effPriority. rewrite Z.ltb_lt. lia. Qed.

Lemma sortInsert_perm {A} (cmp : A → A → Z) x l : sortInsert cmp x l ≡ₚ x :: l.
Proof.
  induction l as [|y l IH]; [done|]. cbn.
  destruct (0 <? cmp y x); [done|]. rewrite IH. apply Permutation_swap.
Qed.

Lemma sort_foldl_perm {A} (cmp : A → A → Z) l : ∀ acc,
  foldl (fun acc x => sortInsert cmp x acc) acc l ≡ₚ acc ++ l.
Proof.
  induction l as [|x l IH]; intros acc; cbn; [by rewrite app_nil_r|].
  rewrite IH, sortInsert_perm. cbn. apply Permutation_middle.
Qed.

Lemma sort_perm {A} (cmp : A → A → Z) l : sort cmp l ≡ₚ l.
Proof. unfold sort. by rewrite sort_foldl_perm. Qed.

Lemma sortInsert_sorted x l :
  StronglySorted ascending l → StronglySorted ascending (sortInsert byPriority x l).
Proof.
  induction 1 as [|y l Hs IH Hall]; cbn; [repeat constructor|].
  destruct (0 <? byPriority y x) eqn:E.
  - apply byPriority_pos in E. constructor; [by constructor|].
    constructor; [unfold ascending; lia|].
    eapply Forall_impl; [exact Hall|]. unfold ascending. intros; cbn in *; lia.
  - constructor; [exact IH|]. rewrite sortInsert_perm. constructor; [|done].
    unfold ascending. destruct (Z.ltb_spec 0 (byPriority y x)); [done|].
    unfold byPriority, effPriority in *. lia.
Qed.

Lemma sort_sorted l : StronglySorted ascending (sort byPriority l).
Proof.
  unfold sort. generalize (@nil ServiceConfig) (SSorted_nil ascending).
  induction l as [|x l IH]; intros acc Hacc; cbn; [done|].
  apply IH. by apply sortInsert_sorted.
Qed.

Lemma head_sortInsert y acc : head (sortInsert byPriority y acc) = pick (head acc) y.
Proof. destruct acc as [|h rest]; cbn; [done|]. by destruct (0 <? byPriority h y). Qed.

Lemma head_sort_foldl l : ∀ acc,
  head (foldl (fun acc x => sortInsert byPriority x acc) acc l) = foldl pick (head acc) l.
Proof.
  induction l as [|x l IH]; intros acc; cbn; [done|].
  by rewrite IH, head_sortInsert.
Qed.

Lemma pick_keep h l :
  Forall (fun x => effPriority h ≤ effPriority x) l → foldl pick (Some h) l = Some h.
Proof.
  induction 1 as [|x l Hx Hl IH]; cbn; [done|].
  destruct (0 <? byPriority h x) eqn:E; [|done].
  apply byPriority_pos in E. lia.
Qed.

Lemma pick_from b l :
  foldl pick b l = b ∨ ∃ x, x ∈ l ∧ foldl pick b l = Some x.
Proof.
  revert b. induction l as [|y l IH]; intros b; cbn; [by left|].
  destruct (IH (pick b y)) as [H|(x & Hx & H)].
  - rewrite H. destruct b as [h|]; cbn.
    + destruct (0 <? byPriority h y); [right; exists y; split; [left|done] | by left].
    + right. exists y. split; [left|done].
  - right. exists x. split; [by right|done].
Qed.

Lemma pick_first_min before cfg after :
  Forall (fun x => effPriority cfg < effPriority x) before →
  Forall (fun x => effPriority cfg ≤ effPriority x) after →
  foldl pick None (before ++ cfg :: after) = Some cfg.
Proof.
  intros Hb Ha. rewrite foldl_app. cbn [foldl].
  assert (pick (foldl pick None before) cfg = Some cfg) as ->.
  { destruct (pick_from None before) as [->|(x & Hx & ->)]; [done|].
    cbn. rewrite Forall_forall in Hb. specialize (Hb x Hx).
    destruct (0 <? byPriority x cfg) eqn:E; [done|].
    destruct (Z.ltb_spec 0 (byPriority x cfg)); [done|].
    unfold byPriority, effPriority in *. lia. }
  by apply pick_keep.
Qed.

Lemma first_min_exists (l : list ServiceConfig) :
  l ≠ [] →
  ∃ before cfg after, l = before ++ cfg :: after
    ∧ Forall (fun x => effPriority cfg < effPriority x) before
    ∧ Forall (fun x => effPriority cfg ≤ effPriority x) after.
Proof.
  induction l as [|x l IH]; [done|]. intros _.
  destruct l as [|y l].
  { exists [], x, []. by repeat constructor. }
  destruct IH as (b & m & a & Hl & Hb & Ha); [done|].
  destruct (decide (effPriority x ≤ effPriority m)) as [Hle|Hgt].
  - exists [], x, (y :: l). split; [done|]. split; [constructor|].
    rewrite Hl. apply Forall_app. split.
    + eapply Forall_impl; [exact Hb|]. intros; cbn in *; lia.
    + constructor; [lia|]. eapply Forall_impl; [exact Ha|]. intros; cbn in *; lia.
  - exists (x :: b), m, a. rewrite Hl. split; [done|]. split; [|done].
    constructor; [lia|done].
Qed.

Lemma findDefaultService_pick services :
  findDefaultService services = name <$> foldl pick None (JsMap.values services).
Proof.
  unfold findDefaultService, JsMap.size. case_bool_decide as Hsize.
  - by destruct services.
  - unfold sort. by rewrite head_sort_foldl.
Qed.

Lemma exactly_three_loaded env :
  (∀ k, truthyStr (env !! ENV_VAR_MAP k) = bool_decide (k ∈ [go; nestjs; python])) →
  ∃ p n g,
    loadServices env = [(python, p); (nestjs, n); (go, g)]
    ∧ loadedConfig env python = Some p
    ∧ loadedConfig env nestjs = Some n
    ∧ loadedConfig env go = Some g.
Proof.
  intros H.
  pose proof (H python) as Hpython. pose proof (H bun) as Hbun.
  pose proof (H java) as Hjava. pose proof (H nestjs) as Hnestjs.
  pose proof (H node) as Hnode. pose proof (H go) as Hgo.
  unfold loadServices, loadedConfig. cbn [foldl ENV_VAR_MAP_keys].
  cbn [ENV_VAR_MAP] in *.
  destruct (env !! "HALOLIGHT_API_PYTHON_URL") as [[|]|]; try discriminate.
  destruct (env !! "HALOLIGHT_API_BUN_URL") as [[|]|]; try discriminate.
  all: destruct (env !! "HALOLIGHT_API_JAVA_URL") as [[|]|]; try discriminate.
  all: destruct (env !! "HALOLIGHT_API_NESTJS_URL") as [[|]|]; try discriminate.
  all: destruct (env !! "HALOLIGHT_API_NODE_URL") as [[|]|]; try discriminate.
  all: destruct (env !! "HALOLIGHT_API_GO_URL") as [[|]|]; try discriminate.
  all: by eexists _, _, _.
Qed.

(** C8. The default service is the first one after a stable sort of the
    configured services by ascending priority, a missing priority
    counting as 99: it is the service of least priority, and among
    several of least priority the one inserted first.  With go (6),
    nestjs (1) and python (2) configured, the default name is nestjs
    and [getDefaultClient] returns the client [getClient] returns for
    nestjs. *)
Theorem findDefaultService_first_least :
  (∀ services : list (ServiceKind * ServiceConfig),
     (services = [] → findDefaultService services = None)
     ∧ (services ≠ [] →
        ∃ sorted before cfg after,
          sorted ≡ₚ JsMap.values services
          ∧ StronglySorted ascending sorted
          ∧ findDefaultService services = name <$> head sorted
          ∧ JsMap.values services = before ++ cfg :: after
          ∧ Forall (fun x => effPriority cfg < effPriority x) before
          ∧ Forall (fun x => effPriority cfg ≤ effPriority x) after
          ∧ findDefaultService services = Some (name cfg)))
  ∧ (∀ a b, priority a = None →
       byPriority a b = 99 - effPriority b ∧ byPriority b a = effPriority b - 99)
  ∧ (∀ env,
       (∀ k, truthyStr (env !! ENV_VAR_MAP k)
             = bool_decide (k ∈ [go; nestjs; python])) →
       getDefaultServiceName (construct env) = Some nestjs
       ∧ getDefaultClient None (construct env) = getClient nestjs None (construct env)
       ∧ ∃ service,
           loadedConfig env nestjs = Some service
           ∧ (getDefaultClient None (construct env)).1
             = Returns {| oid := 0;
                          client := createHttpClient (clientConfig service None) |}).
Proof.
  split; [|split].
  - intros services. split; [by intros ->|]. intros Hne.
    destruct (first_min_exists (JsMap.values services))
      as (before & cfg & after & Hsplit & Hb & Ha).
    { destruct services; [done|]. discriminate. }
    exists (sort byPriority (JsMap.values services)), before, cfg, after.
    split; [apply sort_perm|]. split; [apply sort_sorted|].
    split.
    { unfold findDefaultService, JsMap.size. case_bool_decide as Hsize; [|done].
      by destruct services. }
    split; [done|]. split; [done|]. split; [done|].
    rewrite findDefaultService_pick, Hsplit. by rewrite pick_first_min.
  - intros a b Ha. unfold byPriority, effPriority. rewrite Ha. cbn. lia.
  - intros env Henv.
    destruct (exactly_three_loaded env Henv) as (p & n & g & Hload & Hp & Hn & Hg).
    assert (Hdefault : findDefaultService (loadServices env) = Some nestjs).
    { rewrite Hload. unfold loadedConfig in Hp, Hn, Hg.
      destruct (env !! ENV_VAR_MAP python) as [[|]|]; try discriminate.
      destruct (env !! ENV_VAR_MAP nestjs) as [[|]|]; try discriminate.
      destruct (env !! ENV_VAR_MAP go) as [[|]|]; try discriminate.
      injection Hp as <-. injection Hn as <-. injection Hg as <-. reflexivity. }
    split; [exact Hdefault|].
    unfold getDefaultClient, construct. cbn [defaultService].
    rewrite Hdefault. split; [done|]. exists n. split; [done|].
    unfold getClient. cbn [clientCache services nextOid].
    rewrite lookup_empty, loadServices_get, Hn. reflexivity.
Qed.

Lemma findDefaultService_first_least_witness :
  (∀ k, truthyStr (threeBackends !! ENV_VAR_MAP k)
        = bool_decide (k ∈ [go; nestjs; python]))
  ∧ getDefaultServiceName (construct threeBackends) = Some nestjs.
Proof.
  assert (H : ∀ k, truthyStr (threeBackends !! ENV_VAR_MAP k)
                   = bool_decide (k ∈ [go; nestjs; python])).
  { intros []; reflexivity. }
  split; [exact H|].
  exact (proj1 (proj2 (proj2 findDefaultService_first_least) threeBackends H)).
Defined.

(** *** Invariants *)

Lemma findDefaultService_None services :
  findDefaultService services = None ↔ JsMap.size services = 0%nat.
Proof.
  split.
  - intros Hnone. destruct services as [|p services]; [done|].
    destruct (first_min_exists (JsMap.values (p :: services)))
      as (before & cfg & after & Hsplit & Hb & Ha); [done|].
    rewrite findDefaultService_pick, Hsplit in Hnone.
    by rewrite pick_first_min in Hnone.
  - by destruct services.
Qed.

Lemma findDefaultService_Some env n :
  findDefaultService (loadServices env) = Some n →
  is_Some (JsMap.get n (loadServices env)).
Proof.
  intros Hsome.
  destruct (decide (loadServices env = [])) as [Hnil|Hne].
  { rewrite Hnil in Hsome. discriminate. }
  destruct (first_min_exists (JsMap.values (loadServices env)))
    as (before & cfg & after & Hsplit & Hb & Ha).
  { destruct (loadServices env); [done|]. discriminate. }
  rewrite findDefaultService_pick, Hsplit in Hsome.
  rewrite pick_first_min in Hsome by done. injection Hsome as <-.
  assert (cfg ∈ JsMap.values (loadServices env)) as Hin.
  { rewrite Hsplit. apply elem_of_app. right. left. }
  unfold JsMap.values in Hin. apply list_elem_of_fmap in Hin as [[k v] [-> Hin]].
  pose proof (loadServices_names env) as Hnames.
  rewrite Forall_forall in Hnames. specialize (Hnames _ Hin). cbn in Hnames.
  cbn. rewrite Hnames. apply get_is_Some. unfold JsMap.keys.
  apply list_elem_of_fmap. by exists (k, v).
Qed.

Lemma getClient_cases n options st :
  (∃ cached, clientCache st !! n = Some cached ∧ options = None
             ∧ getClient n options st = (Returns cached, st))
  ∨ ((clientCache st !! n = None ∨ is_Some options)
     ∧ JsMap.get n (services st) = None
     ∧ getClient n options st = (Throws (notConfiguredMessage n), st))
  ∨ (∃ service,
       (clientCache st !! n = None ∨ is_Some options)
       ∧ JsMap.get n (services st) = Some service
       ∧ getClient n options st
         = (Returns {| oid := nextOid st;
                       client := createHttpClient (clientConfig service options) |},
            {| services := services st;
               defaultService := defaultService st;
               clientCache :=
                 match options with
                 | None => <[ n := {| oid := nextOid st;
                                      client := createHttpClient
                                                  (clientConfig service options) |} ]>
                             (clientCache st)
                 | Some _ => clientCache st
                 end;
               nextOid := S (nextOid st) |})).
Proof.
  unfold getClient.
  destruct (clientCache st !! n) as [cached|] eqn:Hc, options as [o|];
    destruct (JsMap.get n (services st)) as [service|] eqn:Hs;
    eauto 10.
Qed.

Lemma getClient_Loaded n options st :
  Loaded st → Loaded (getClient n options st).2.
Proof.
  intros HL. destruct (getClient_cases n options st)
    as [(cached & _ & _ & ->) | [(_ & _ & ->) | (service & _ & _ & ->)]]; done.
Qed.

Lemma getClient_CacheSound n options st :
  CacheSound st → CacheSound (getClient n options st).2.
Proof.
  intros HC. destruct (getClient_cases n options st)
    as [(cached & _ & _ & ->) | [(_ & _ & ->) | (service & _ & Hs & ->)]];
    [done|done|].
  intros k obj. cbn. destruct options as [o|].
  - intros Hk. destruct (HC k obj Hk) as [Hlt Hsv]. split; [lia|done].
  - rewrite lookup_insert. case_decide as Hkn.
    + intros [= <-]. subst k. cbn. split; [lia|]. by exists service.
    + intros Hk. destruct (HC k obj Hk) as [Hlt Hsv]. split; [lia|done].
Qed.

Lemma checkHealth_state net n st w :
  (checkHealth net n st w).1.2 = st
  ∨ (checkHealth net n st w).1.2 = (getClient n None st).2.
Proof.
  unfold checkHealth. destruct (JsMap.get n (services st)); [|by left].
  right. destruct (getClient n None st) as [[obj|msg] st1]; [|done].
  by destruct (HttpClient.get _ _ _ _ _ _) as [[v|e] w1].
Qed.

Lemma step_Loaded op st : Loaded st → Loaded (step op st).
Proof.
  intros HL. destruct op as [env|n o|o|net n w]; cbn.
  - by exists env.
  - by apply getClient_Loaded.
  - unfold getDefaultClient. destruct (defaultService st); [|done].
    by apply getClient_Loaded.
  - destruct (checkHealth_state net n st w) as [-> | ->]; [done|].
    by apply getClient_Loaded.
Qed.

Lemma step_CacheSound op st : CacheSound st → CacheSound (step op st).
Proof.
  intros HC. destruct op as [env|n o|o|net n w]; cbn.
  - intros k obj. cbn. by rewrite lookup_empty.
  - by apply getClient_CacheSound.
  - unfold getDefaultClient. destruct (defaultService st); [|done].
    by apply getClient_CacheSound.
  - destruct (checkHealth_state net n st w) as [-> | ->]; [done|].
    by apply getClient_CacheSound.
Qed.

Lemma reachable_Loaded st : reachable st → Loaded st.
Proof.
  induction 1 as [env|op st _ IH]; [by exists env|by apply step_Loaded].
Qed.

Lemma reachable_CacheSound st : reachable st → CacheSound st.
Proof.
  induction 1 as [env|op st _ IH]; [|by apply step_CacheSound].
  intros k obj. cbn. by rewrite lookup_empty.
Qed.

Lemma Loaded_CacheSound_Inv st : Loaded st → CacheSound st → Inv st.
Proof.
  intros (env & Hs & Hd) HC. unfold Inv. rewrite Hs, Hd.
  split; [apply findDefaultService_None|].
  split; [apply findDefaultService_Some|].
  intros n [obj Hobj]. destruct (HC n obj Hobj) as [_ (service & Hsv & _)].
  rewrite Hs in Hsv. by rewrite Hsv.
Qed.

Lemma notConfiguredMessage_names n :
  ∃ before after,
    notConfiguredMessage n = before +:+ ENV_VAR_MAP n +:+ after.
Proof.
  exists ("Service " +:+ dquote +:+ kindToString n +:+ dquote
          +:+ " is not configured. Set "), " environment variable.".
  by destruct n.
Qed.

(** C7. In every state the registry can reach from its construction by
    [reload], [getClient], [getDefaultClient] and [checkHealth], the
    default service name is null exactly when no service is configured
    and otherwise names a configured service, and every cached client
    belongs to a configured service.  [reload] empties the cache as it
    replaces the configuration, so that [getClient] for a service whose
    variable is no longer set throws the error naming that variable,
    whatever was cached before. *)
Theorem registry_invariants :
  (∀ st, reachable st → Inv st)
  ∧ (∀ env st,
       clientCache (reload env st) = ∅
       ∧ services (reload env st) = loadServices env
       ∧ defaultService (reload env st) = findDefaultService (loadServices env))
  ∧ (∀ env st n options,
       truthyStr (env !! ENV_VAR_MAP n) = false →
       getClient n options (reload env st)
       = (Throws (notConfiguredMessage n), reload env st)
       ∧ ∃ before after,
           notConfiguredMessage n = before +:+ ENV_VAR_MAP n +:+ after).
Proof.
  split; [|split].
  - intros st Hst. apply Loaded_CacheSound_Inv;
      [by apply reachable_Loaded | by apply reachable_CacheSound].
  - done.
  - intros env st n options Hunset. split; [|apply notConfiguredMessage_names].
    unfold getClient. cbn [clientCache services reload].
    rewrite lookup_empty, loadServices_get. unfold loadedConfig.
    by destruct (env !! ENV_VAR_MAP n) as [[|]|], options.
Qed.

Lemma registry_invariants_witness :
  reachable (step (OpGetClient nestjs None) (construct threeBackends))
  ∧ is_Some (clientCache (step (OpGetClient nestjs None) (construct threeBackends))
             !! nestjs)
  ∧ Inv (step (OpGetClient nestjs None) (construct threeBackends))
  ∧ truthyStr (twoBackends !! ENV_VAR_MAP nestjs) = false
  ∧ (getClient nestjs None
       (reload twoBackends
          (step (OpGetClient nestjs None) (construct threeBackends)))).1
    = Throws ("Service " +:+ dquote +:+ "nestjs" +:+ dquote
              +:+ " is not configured. Set HALOLIGHT_API_NESTJS_URL"
              +:+ " environment variable.").
Proof.
  assert (Hreach : reachable
            (step (OpGetClient nestjs None) (construct threeBackends))).
  { apply reach_step, reach_construct. }
  split; [exact Hreach|]. split; [by eexists|].
  split; [exact (proj1 registry_invariants _ Hreach)|].
  split; [reflexivity|].
  rewrite (proj1 (proj2 (proj2 registry_invariants) twoBackends
             (step (OpGetClient nestjs None) (construct threeBackends))
             nestjs None eq_refl)).
  reflexivity.
Defined.

(** *** Client identity *)

Lemma getClient_keeps_cached n obj k o st :
  clientCache st !! n = Some obj →
  clientCache (getClient k o st).2 !! n = Some obj.
Proof.
  intros Hn. destruct (getClient_cases k o st)
    as [(cached & _ & _ & ->) | [(_ & _ & ->) | (service & Hk & _ & ->)]];
    [done|done|].
  cbn. destruct o as [o|]; [done|].
  destruct Hk as [Hk|[? [=]]].
  rewrite lookup_insert_ne; [done|]. intros ->. congruence.
Qed.

Lemma afterCalls_keeps_cached n obj calls : ∀ st,
  clientCache st !! n = Some obj →
  clientCache (afterCalls calls st) !! n = Some obj.
Proof.
  induction calls as [|[k o] calls IH]; intros st Hn; [done|].
  cbn. apply IH. by apply getClient_keeps_cached.
Qed.

Lemma getClient_avoids (f : nat) k o st :
  (f < nextOid st)%nat →
  (∀ n obj, clientCache st !! n = Some obj → oid obj ≠ f) →
  (f < nextOid (getClient k o st).2)%nat
  ∧ (∀ n obj, clientCache (getClient k o st).2 !! n = Some obj → oid obj ≠ f)
  ∧ (∀ obj, (getClient k o st).1 = Returns obj → oid obj ≠ f).
Proof.
  intros Hlt Hcache. destruct (getClient_cases k o st)
    as [(cached & Hc & _ & ->) | [(_ & _ & ->) | (service & _ & _ & ->)]]; cbn.
  - split; [done|]. split; [done|]. intros obj [= <-]. by eapply Hcache.
  - done.
  - split; [lia|]. split; [|intros obj [= <-]; cbn; lia].
    intros n obj. destruct o as [o|]; [apply Hcache|].
    rewrite lookup_insert. case_decide; [|apply Hcache].
    intros [= <-]. cbn. lia.
Qed.

Lemma afterCalls_avoids (f : nat) calls : ∀ st,
  (f < nextOid st)%nat →
  (∀ n obj, clientCache st !! n = Some obj → oid obj ≠ f) →
  (f < nextOid (afterCalls calls st))%nat
  ∧ (∀ n obj, clientCache (afterCalls calls st) !! n = Some obj → oid obj ≠ f).
Proof.
  induction calls as [|[k o] calls IH]; intros st Hlt Hcache; [done|].
  cbn. destruct (getClient_avoids f k o st Hlt Hcache) as (H1 & H2 & _).
  by apply IH.
Qed.

(** C6. For a configured service, [getClient] without overrides returns
    the cached client, which it allocates and stores on first use; the
    same object is returned by every later call without overrides,
    whatever other [getClient] calls come in between.  With overrides
    it returns a newly allocated client, leaves the cache as it was,
    and that client never enters the cache: it is distinct from every
    client that is or will be cached. *)
Theorem getClient_caching_identity (st : State) (n : ServiceKind)
    (service : ServiceConfig) :
  CacheSound st →
  JsMap.get n (services st) = Some service →
  (∃ obj st1,
     getClient n None st = (Returns obj, st1)
     ∧ clientCache st1 !! n = Some obj
     ∧ (∀ cached, clientCache st !! n = Some cached → obj = cached ∧ st1 = st)
     ∧ (clientCache st !! n = None →
        oid obj = nextOid st
        ∧ client obj = createHttpClient (clientConfig service None))
     ∧ (∀ calls, getClient n None (afterCalls calls st1)
                 = (Returns obj, afterCalls calls st1)))
  ∧ (∀ o, ∃ fresh st1,
       getClient n (Some o) st = (Returns fresh, st1)
       ∧ oid fresh = nextOid st
       ∧ client fresh = createHttpClient (clientConfig service (Some o))
       ∧ clientCache st1 = clientCache st
       ∧ (∀ calls k cached,
            clientCache (afterCalls calls st1) !! k = Some cached →
            oid cached ≠ oid fresh)
       ∧ (∀ calls obj,
            (getClient n None (afterCalls calls st1)).1 = Returns obj →
            oid obj ≠ oid fresh)).
Proof.
  intros HC Hs. split.
  - assert (∃ obj st1, getClient n None st = (Returns obj, st1)
              ∧ clientCache st1 !! n = Some obj
              ∧ (∀ cached, clientCache st !! n = Some cached →
                           obj = cached ∧ st1 = st)
              ∧ (clientCache st !! n = None →
                 oid obj = nextOid st
                 ∧ client obj = createHttpClient (clientConfig service None)))
      as (obj & st1 & Hget & Hcached & Hhit & Hmiss).
    { destruct (getClient_cases n None st)
        as [(cached & Hc & _ & ->) | [(_ & Hnone & _) | (sv & Hc & Hsv & ->)]].
      - exists cached, st. split; [done|]. split; [done|].
        split; [|by rewrite Hc]. intros c'. rewrite Hc. by intros [= ->].
      - congruence.
      - destruct Hc as [Hc|[? [=]]]. rewrite Hs in Hsv. injection Hsv as <-.
        eexists _, _. split; [done|]. cbn. rewrite lookup_insert_eq.
        split; [done|]. split; [by rewrite Hc|done]. }
    exists obj, st1. split; [done|]. split; [done|]. split; [done|].
    split; [done|]. intros calls.
    pose proof (afterCalls_keeps_cached n obj calls st1 Hcached) as Hkeep.
    unfold getClient. by rewrite Hkeep.
  - intros o. destruct (getClient_cases n (Some o) st)
      as [(cached & _ & [=] & _) | [(_ & Hnone & _) | (sv & _ & Hsv & Hget)]];
      [congruence|].
    rewrite Hs in Hsv. injection Hsv as <-.
    eexists _, _. split; [exact Hget|]. cbn.
    split; [done|]. split; [done|]. split; [done|].
    set (st1 := {| services := services st; defaultService := defaultService st;
                   clientCache := clientCache st; nextOid := S (nextOid st) |}).
    assert (Hlt : (nextOid st < nextOid st1)%nat) by (cbn; lia).
    assert (Hcache : ∀ k obj, clientCache st1 !! k = Some obj →
                              oid obj ≠ nextOid st).
    { intros k obj Hk. destruct (HC k obj Hk) as [Hlt' _]. lia. }
    split.
    + intros calls. by apply afterCalls_avoids.
    + intros calls obj Hobj.
      destruct (afterCalls_avoids (nextOid st) calls st1 Hlt Hcache) as [H1 H2].
      by apply (getClient_avoids (nextOid st) n None (afterCalls calls st1) H1 H2).
Qed.

Lemma getClient_caching_identity_witness :
  CacheSound (construct threeBackends)
  ∧ is_Some (JsMap.get python (services (construct threeBackends)))
  ∧ (∃ obj st1,
       getClient python None (construct threeBackends) = (Returns obj, st1)
       ∧ getClient python None st1 = (Returns obj, st1)
       ∧ ∀ o obj', (getClient python (Some o) st1).1 = Returns obj' →
                   oid obj' ≠ oid obj).
Proof.
  assert (HC : CacheSound (construct threeBackends)).
  { apply reachable_CacheSound, reach_construct. }
  split; [exact HC|]. split; [by eexists|].
  destruct (getClient_caching_identity (construct threeBackends) python
              {| name := python; baseUrl := "https://api.example.com";
                 healthPath := Some DEFAULT_HEALTH_PATH;
                 priority := Some 2 |} HC eq_refl)
    as [(obj & st1 & Hget & Hcached & _ & _ & Hsame) _].
  exists obj, st1. split; [exact Hget|]. split; [exact (Hsame [])|].
  intros o obj' Hobj'.
  assert (HC1 : CacheSound st1).
  { replace st1 with (getClient python None (construct threeBackends)).2
      by (by rewrite Hget).
    by apply getClient_CacheSound. }
  destruct (HC1 python obj Hcached) as [_ (sv & Hsv & _)].
  destruct (getClient_caching_identity st1 python sv HC1 Hsv) as [_ Hfresh].
  destruct (Hfresh o) as (fresh & st2 & Hget2 & _ & _ & Hcache2 & Hnever & _).
  rewrite Hget2 in Hobj'. injection Hobj' as <-.
  intros Heq. apply (Hnever [] python obj); [|done].
  cbn. by rewrite Hcache2.
Defined.

(** *** Health probes *)

Lemma request_single net c opts schema w :
  maxAttempts c opts = 1 →
  request net c opts schema w
  = match awaitDoFetch net c opts schema w with
    | (Normal v, w1) => (Fulfilled v, w1)
    | (Abrupt e, w1) => (Rejected (Some e), w1)
    end.
Proof.
  intros Hmax. unfold request. rewrite Hmax.
  rewrite RetryProps.attempts_unfold. rewrite decide_True by lia.
  destruct (awaitDoFetch net c opts schema w) as [[v|e] w1]; [done|].
  by rewrite bool_decide_eq_true_2.
Qed.

Lemma getClient_cached_client n st service :
  CacheSound st → JsMap.get n (services st) = Some service →
  ∃ obj st1, getClient n None st = (Returns obj, st1)
             ∧ client obj = createHttpClient (clientConfig service None).
Proof.
  intros HC Hs. destruct (getClient_cases n None st)
    as [(cached & Hc & _ & ->) | [(_ & Hnone & _) | (sv & _ & Hsv & ->)]].
  - exists cached, st. split; [done|].
    destruct (HC n cached Hc) as [_ (sv & Hsv & ->)]. congruence.
  - congruence.
  - eexists _, _. split; [done|]. cbn. congruence.
Qed.

(** C9. For a configured service [checkHealth] returns a result in every
    case.  It makes one call, a GET of the service's health path with a
    3000 ms deadline and no retry, and reports the time that call took;
    the service is healthy exactly when the attempt succeeds, so a
    response outside the success range, a failure of the transport and
    an expired deadline all give [healthy: false]. *)
Theorem checkHealth_configured (net : Transport) (n : ServiceKind) (st : State)
    (w : World) (service : ServiceConfig) :
  CacheSound st →
  JsMap.get n (services st) = Some service →
  let c := createHttpClient (clientConfig service None) in
  let opts := withPathMethod (Some healthOptions) (probePath service) GET in
  let call := fetchCall c opts in
  let h := (checkHealth net n st w).1.1 in
  let w' := (checkHealth net n st w).2 in
  f_method call = GET
  ∧ f_url call = buildUrl c (probePath service) None
  ∧ f_deadline call = 3000
  ∧ maxAttempts c opts = 1
  ∧ timeline w' = timeline w ++ [EvFetch call]
  ∧ sent w' = S (sent w)
  ∧ latencyMs h = now w' - now w
  ∧ healthy h = match attemptAt net c opts None (sent w) with
                | Normal _ => true
                | Abrupt _ => false
                end
  ∧ (∀ r raw, latency (net (sent w) call) < 3000 →
       outcome (net (sent w) call) = Normal r → readBody r = Normal raw →
       ok r = true → healthy h = true)
  ∧ (∀ r, outcome (net (sent w) call) = Normal r → ok r = false →
          healthy h = false)
  ∧ (∀ t, outcome (net (sent w) call) = Abrupt t → healthy h = false)
  ∧ (3000 ≤ latency (net (sent w) call) →
     healthy h = false ∧ latencyMs h = 3000).
Proof.
  intros HC Hs c opts call h w'.
  destruct (getClient_cached_client n st service HC Hs)
    as (obj & st1 & Hget & Hclient).
  assert (Hmax : maxAttempts c opts = 1) by reflexivity.
  assert (Hdead : f_deadline call = 3000) by reflexivity.
  assert (Hrun : checkHealth net n st w
    = match doFetch c opts None (net (sent w) call) with
      | Normal _ =>
          ({| healthy := true;
              latencyMs := now w + Z.min (latency (net (sent w) call)) 3000
                           - now w |}, st1,
           {| now := now w + Z.min (latency (net (sent w) call)) 3000;
              sent := S (sent w); log := EvFetch call :: log w |})
      | Abrupt _ =>
          ({| healthy := false;
              latencyMs := now w + Z.min (latency (net (sent w) call)) 3000
                           - now w |}, st1,
           {| now := now w + Z.min (latency (net (sent w) call)) 3000;
              sent := S (sent w); log := EvFetch call :: log w |})
      end).
  { unfold checkHealth. rewrite Hs, Hget, Hclient. fold (probePath service).
    unfold HttpClient.get. fold c. fold opts. rewrite request_single by done.
    unfold awaitDoFetch. fold call. rewrite Hdead.
    by destruct (doFetch c opts None (net (sent w) call)). }
  assert (Hh : healthy h = match attemptAt net c opts None (sent w) with
                           | Normal _ => true
                           | Abrupt _ => false
                           end).
  { unfold h, attemptAt. fold call. rewrite Hrun.
    by destruct (doFetch c opts None (net (sent w) call)). }
  split; [done|]. split; [done|]. split; [done|]. split; [done|].
  split.
  { unfold w', timeline. rewrite Hrun.
    destruct (doFetch c opts None (net (sent w) call)); cbn [snd log];
      by rewrite reverse_cons. }
  split; [unfold w'; rewrite Hrun;
          by destruct (doFetch c opts None (net (sent w) call))|].
  split; [unfold h, w'; rewrite Hrun;
          by destruct (doFetch c opts None (net (sent w) call))|].
  split; [exact Hh|].
  unfold attemptAt in Hh. fold call in Hh.
  split.
  { intros r raw Hlt Hr Hraw Hok. rewrite Hh.
    rewrite FetchProps.doFetch_in_time by (fold call; lia).
    fold call. rewrite Hr. unfold handleResponse. by rewrite Hraw, Hok. }
  split.
  { intros r Hr Hok. rewrite Hh. unfold doFetch, awaitResponse. fold call.
    destruct (f_deadline call <=? latency (net (sent w) call)); [done|].
    rewrite Hr. unfold handleResponse.
    destruct (readBody r); [|done]. by rewrite Hok. }
  split.
  { intros t Ht. rewrite Hh. unfold doFetch, awaitResponse. fold call.
    destruct (f_deadline call <=? latency (net (sent w) call)); [done|].
    by rewrite Ht. }
  intros Hlate. split.
  - rewrite Hh. unfold doFetch, awaitResponse. fold call. rewrite Hdead.
    by rewrite (proj2 (Z.leb_le _ _) Hlate).
  - unfold h. rewrite Hrun.
    destruct (doFetch c opts None (net (sent w) call)); cbn; lia.
Qed.

Lemma checkHealth_configured_witness :
  CacheSound (construct threeBackends)
  ∧ is_Some (JsMap.get python (services (construct threeBackends)))
  ∧ (checkHealth alwaysFailing python (construct threeBackends) start).1.1
    = {| healthy := false; latencyMs := 40 |}
  ∧ timeline (checkHealth alwaysFailing python (construct threeBackends) start).2
    = [ EvFetch {| f_url := "https://api.example.com/health";
                   f_method := GET;
                   f_headers := Stated.baseline;
                   f_body := None;
                   f_deadline := 3000 |} ].
Proof.
  assert (HC : CacheSound (construct threeBackends)).
  { apply reachable_CacheSound, reach_construct. }
  split; [exact HC|]. split; [by eexists|].
  pose proof (checkHealth_configured alwaysFailing python
                (construct threeBackends) start
                {| name := python; baseUrl := "https://api.example.com";
                   healthPath := Some DEFAULT_HEALTH_PATH;
                   priority := Some 2 |} HC eq_refl) as H.
  cbv zeta in H.
  destruct H as (_ & _ & _ & _ & Htl & _ & Hlat & Hh & _).
  split.
  - destruct ((checkHealth alwaysFailing python (construct threeBackends) start).1.1)
      as [hl lat]. cbn in Hh, Hlat. rewrite Hh, Hlat. reflexivity.
  - rewrite Htl. reflexivity.
Defined.

(** C10. For a service that is not configured [checkHealth] returns
    [{healthy: false, latencyMs: -1}] at once: it calls nothing, leaves
    registry, cache and world as they were, and the latency it reports
    is not a difference of two clock readings. *)
Theorem checkHealth_unconfigured (net : Transport) (n : ServiceKind)
    (st : State) (w : World) :
  JsMap.get n (services st) = None →
  checkHealth net n st w = ({| healthy := false; latencyMs := -1 |}, st, w).
Proof. intros Hs. unfold checkHealth. by rewrite Hs. Qed.

Lemma checkHealth_unconfigured_witness :
  JsMap.get bun (services (construct threeBackends)) = None
  ∧ checkHealth alwaysFailing bun (construct threeBackends) start
    = ({| healthy := false; latencyMs := -1 |}, construct threeBackends, start).
Proof.
  split; [reflexivity|].
  apply (checkHealth_unconfigured alwaysFailing bun (construct threeBackends) start).
  reflexivity.
Defined.

End RegistryProps.

(** ** Clients handed out by the request context *)

Module ContextProps.
Import Js HttpClient ServiceRegistry RequestContext Stated.

Lemma context_client_defaults tok trace st obj st' :
  (∃ n, services_get tok trace n st = (Returns obj, st'))
  ∨ services_getDefault tok trace st = (Returns obj, st') →
  c_defaultHeaders (client obj) = contextHeaders tok trace.
Proof.
  assert (Hget : ∀ n, getClient n (Some (contextOptions tok trace)) st
                      = (Returns obj, st') →
                      c_defaultHeaders (client obj) = contextHeaders tok trace).
  { intros n Hn.
    destruct (RegistryProps.getClient_cases n (Some (contextOptions tok trace)) st)
      as [(cached & _ & [=] & _) | [(_ & _ & Hthrow) | (sv & _ & _ & Hret)]].
    - rewrite Hthrow in Hn. discriminate.
    - rewrite Hret in Hn. by injection Hn as <- _. }
  intros [[n Hn] | Hd]; [by apply (Hget n)|].
  unfold services_getDefault, getDefaultClient in Hd.
  destruct (defaultService st) as [n|]; [by apply (Hget n)|discriminate].
Qed.

Lemma contextHeaders_lookup tok trace k :
  contextHeaders tok trace !! k
  = if decide (k = "Authorization") then
      match tok with
      | Some (String a t) => Some ("Bearer " +:+ String a t)
      | _ => None
      end
    else if decide (k = "X-Trace-Id") then Some trace else None.
Proof.
  unfold contextHeaders, spread. rewrite lookup_union.
  destruct tok as [[|a t]|];
    rewrite ?lookup_empty, ?lookup_singleton; repeat case_decide;
    subst; try discriminate; try congruence; reflexivity.
Qed.

(** C4, as the code has it.  A request issued through a client obtained
    from [ctx.services.get] or [ctx.services.getDefault] carries
    [Authorization: Bearer <token>] whenever the context holds a
    non-empty token, and [X-Trace-Id] set to the context's trace id,
    without the router supplying them.  The context does not set
    [X-Request-Id]: that header is sent only when the call itself names
    it or passes a trace id, in which case both trace headers take the
    call's trace id. *)
Theorem context_client_headers (tok : option string) (trace : string)
    (st st' : State) (obj : ClientObject) (opts : RequestOptions) :
  (∃ n, services_get tok trace n st = (Returns obj, st'))
  ∨ services_getDefault tok trace st = (Returns obj, st') →
  (truthyStr (traceId opts) = false →
   default ∅ (headers opts) !! "X-Trace-Id" = None →
   f_headers (fetchCall (client obj) opts) !! "X-Trace-Id" = Some trace)
  ∧ (∀ a t, tok = Some (String a t) →
       truthyStr (token opts) = false →
       default ∅ (headers opts) !! "Authorization" = None →
       f_headers (fetchCall (client obj) opts) !! "Authorization"
       = Some ("Bearer " +:+ String a t))
  ∧ (truthyStr (traceId opts) = false →
     f_headers (fetchCall (client obj) opts) !! "X-Request-Id"
     = default ∅ (headers opts) !! "X-Request-Id")
  ∧ (∀ a t, traceId opts = Some (String a t) →
       f_headers (fetchCall (client obj) opts) !! "X-Trace-Id"
       = Some (String a t)
       ∧ f_headers (fetchCall (client obj) opts) !! "X-Request-Id"
         = Some (String a t)).
Proof.
  intros Hobj. pose proof (context_client_defaults _ _ _ _ _ Hobj) as Hdef.
  cbn [f_headers fetchCall].
  assert (Hlook : ∀ k, requestHeaders (client obj) opts !! k
            = match traceLayer (traceId opts) !! k with Some v => Some v | None =>
              match authLayer (token opts) !! k with Some v => Some v | None =>
              match default ∅ (headers opts) !! k with Some v => Some v | None =>
              match contextHeaders tok trace !! k with Some v => Some v | None =>
              baseline !! k end end end end).
  { intros k. rewrite <- Hdef. apply FetchProps.requestHeaders_lookup. }
  split; [|split; [|split]].
  - intros Htr Hh. rewrite Hlook, Hh, contextHeaders_lookup.
    unfold traceLayer, authLayer.
    destruct (traceId opts) as [[|]|]; try discriminate;
      destruct (token opts) as [[|]|]; by rewrite ?lookup_empty, ?lookup_singleton.
  - intros a t -> Htk Hh. rewrite Hlook, Hh, contextHeaders_lookup.
    unfold traceLayer, authLayer.
    destruct (token opts) as [[|]|]; try discriminate;
      destruct (traceId opts) as [[|]|];
      by rewrite ?lookup_empty, ?lookup_insert, ?lookup_singleton.
  - intros Htr. rewrite Hlook, contextHeaders_lookup.
    unfold traceLayer, authLayer.
    destruct (traceId opts) as [[|]|]; try discriminate;
      destruct (token opts) as [[|]|];
      rewrite ?lookup_empty, ?lookup_singleton; cbn;
      by destruct (default ∅ (headers opts) !! "X-Request-Id").
  - intros a t Htr. rewrite !Hlook. unfold traceLayer. rewrite Htr.
    split; reflexivity.
Qed.

Lemma context_client_headers_witness :
  (services_get (Some "jwt") "trace-1" nestjs (construct threeBackends)).1
  = Returns {| oid := 0;
               client := createHttpClient
                 (clientConfig
                    {| name := nestjs; baseUrl := "http://nestjs:3000";
                       healthPath := Some DEFAULT_HEALTH_PATH;
                       priority := Some 1 |}
                    (Some (contextOptions (Some "jwt") "trace-1"))) |}
  ∧ f_headers (fetchCall
       (createHttpClient
          (clientConfig
             {| name := nestjs; baseUrl := "http://nestjs:3000";
                healthPath := Some DEFAULT_HEALTH_PATH;
                priority := Some 1 |}
             (Some (contextOptions (Some "jwt") "trace-1"))))
       usersCall) !! "Authorization" = Some "Bearer jwt".
Proof.
  split; [reflexivity|].
  refine (proj1 (proj2 (context_client_headers (Some "jwt") "trace-1"
            (construct threeBackends) _ {| oid := 0; client := _ |} usersCall
            (or_introl (ex_intro _ nestjs eq_refl))))
            "j"%char "wt" eq_refl eq_refl eq_refl).
Defined.

(** C4, as stated, fails: the client the context hands out sends the
    trace id as [X-Trace-Id] but sends no [X-Request-Id]. *)
Lemma context_client_lacks_request_id :
  match (services_get (Some "jwt") "trace-1" nestjs (construct threeBackends)).1 with
  | Returns obj =>
      f_headers (fetchCall (client obj) usersCall) !! "X-Trace-Id"
        = Some "trace-1"
      ∧ f_headers (fetchCall (client obj) usersCall) !! "X-Request-Id" = None
      ∧ f_headers (fetchCall (client obj) usersCall) !! "X-Request-Id"
        ≠ f_headers (fetchCall (client obj) usersCall) !! "X-Trace-Id"
  | Throws _ => False
  end.
Proof. vm_compute. split; [done|]. split; [done|]. discriminate. Qed.

End ContextProps.

(** ** More on the retry loop *)

Module RetryExtras.
Import Js HttpClient Stated StatedExtra.

(** When the method is GET, PUT or DELETE and the retry count allows it,
    [request] goes on through retryable failures and stops at the first
    attempt that succeeds or fails with an error that is not retried:
    it settles as that attempt did, after exactly that many calls, each
    but the first preceded by its backoff. *)
Theorem request_stops_at_first_final (net : Transport) (c : HttpClient)
    (opts : RequestOptions) (schema : option Schema) (w : World) (k : nat) :
  Z.of_nat k ≤ nullish (retries opts) (c_retries c) →
  isIdempotent opts = true →
  (∀ j, (j < k)%nat →
     isFinal (attemptAt net c opts schema (sent w + j)) = false) →
  isFinal (attemptAt net c opts schema (sent w + k)) = true →
  (request net c opts schema w).1
    = settles (attemptAt net c opts schema (sent w + k))
  ∧ executions w (request net c opts schema w).2 = S k
  ∧ timeline (request net c opts schema w).2
    = timeline w ++ schedule (fetchCall c opts) (S k).
Proof.
  intros Hk Hidem Hbefore Hfinal.
  destruct (RetryProps.attempts_run net c opts schema (maxAttempts c opts)
              (Z.to_nat (nullish (retries opts) (c_retries c))) 1 None w)
    as (n & Hn & Hsent & Hlog & Hprev & Hlast).
  { unfold maxAttempts. lia. }
  fold (request net c opts schema w) in Hsent, Hlog, Hlast.
  assert (n = S k) as ->.
  { destruct (decide (n < S k)%nat) as [Hlt|Hge].
    - specialize (Hbefore (n - 1)%nat ltac:(lia)).
      replace (sent w + (n - 1))%nat with (sent w + n - 1)%nat in Hbefore by lia.
      destruct (attemptAt net c opts schema (sent w + n - 1)) as [v|e];
        [discriminate|].
      cbn in Hbefore. apply negb_false_iff in Hbefore.
      destruct Hlast as [_ [Hl|[Hl|Hl]]]; [lia|congruence|congruence].
    - destruct (decide (n = S k)) as [|Hne]; [done|].
      destruct (Hprev k ltac:(lia)) as [_ (e & He & Hre)].
      rewrite He in Hfinal. cbn in Hfinal. by rewrite Hre in Hfinal. }
  replace (sent w + S k - 1)%nat with (sent w + k)%nat in Hlast by lia.
  split; [|split].
  - destruct (attemptAt net c opts schema (sent w + k)); [done|].
    by destruct Hlast.
  - unfold executions. lia.
  - unfold timeline. rewrite Hlog, reverse_app, reverse_involutive. done.
Qed.


Lemma request_stops_at_first_final_witness :
  (request failsOnce (clientAt "http://x") usersCall None start).1
  = Fulfilled (JObj [("status", JStr "ok")])
  ∧ executions start
      (request failsOnce (clientAt "http://x") usersCall None start).2 = 2%nat.
Proof.
  destruct (request_stops_at_first_final failsOnce (clientAt "http://x")
              usersCall None start 1%nat) as (Hsettled & Hcount & _).
  - by vm_compute.
  - reflexivity.
  - intros j Hj. assert (j = 0%nat) as -> by lia. reflexivity.
  - reflexivity.
  - split; [rewrite Hsettled; reflexivity|exact Hcount].
Defined.

Lemma backoffMs_le a : backoffMs a ≤ 2000.
Proof. unfold backoffMs. lia. Qed.

Lemma attempts_duration net c opts schema maxA (m : nat) : ∀ (a : Z) lastError w,
  0 ≤ f_deadline (fetchCall c opts) →
  maxA - a = Z.of_nat m →
  now (attempts net c opts schema maxA a lastError w).2
  ≤ now w + (Z.of_nat m + 1) * f_deadline (fetchCall c opts) + 2000 * Z.of_nat m.
Proof.
  induction m as [|m IH]; intros a lastError w HD Hm;
    rewrite RetryProps.attempts_unfold; rewrite decide_True by lia;
    unfold awaitDoFetch;
    destruct (doFetch c opts schema (net (sent w) (fetchCall c opts))) as [v|e];
    cbn [snd now]; try nia.
  - rewrite bool_decide_eq_true_2 by lia. cbn [orb snd now]. lia.
  - destruct (bool_decide (a = maxA) || negb (isRetryable e)
              || negb (isIdempotent opts)); [cbn [snd now]; nia|].
    etransitivity; [apply IH; [done|lia]|].
    cbn [now sleep]. pose proof (backoffMs_le a). nia.
Qed.

(** With a retry count [r >= 0] and a deadline [d >= 0], the clock
    reads at most [(r + 1) * d + 2000 * r] ms more when [request] settles
    than when it was called: no attempt outlasts its deadline and no
    backoff exceeds 2000 ms. *)
Theorem request_duration_bound (net : Transport) (c : HttpClient)
    (opts : RequestOptions) (schema : option Schema) (w : World) :
  let r := nullish (retries opts) (c_retries c) in
  let deadline := nullish (timeoutMs opts) (c_timeoutMs c) in
  0 ≤ r → 0 ≤ deadline →
  now (request net c opts schema w).2
  ≤ now w + (r + 1) * deadline + 2000 * r.
Proof.
  intros r deadline Hr HD.
  pose proof (attempts_duration net c opts schema (maxAttempts c opts)
                (Z.to_nat r) 1 None w HD) as H.
  unfold request. change (f_deadline (fetchCall c opts)) with deadline in H.
  rewrite Z2Nat.id in H by lia. apply H. unfold maxAttempts. fold r. lia.
Qed.

Lemma request_duration_bound_witness :
  now (request alwaysFailing (clientAt "http://x") usersCall None start).2
  ≤ 34000.
Proof.
  pose proof (request_duration_bound alwaysFailing (clientAt "http://x")
                usersCall None start) as H.
  cbv zeta in H. etransitivity; [apply H; by vm_compute|by vm_compute].
Defined.

Lemma doFetch_typed c opts schema a :
  (∃ v, doFetch c opts schema a = Normal v)
  ∨ (∃ e, doFetch c opts schema a = Abrupt (ThrownTyped e)).
Proof.
  unfold doFetch.
  destruct (match awaitResponse (fetchCall c opts) a with
            | Normal response => handleResponse schema response
            | Abrupt t => Abrupt t
            end) as [v|t]; [left; by eexists|right].
  destruct (FetchProps.catchClause_typed t) as [e ->]. by eexists.
Qed.

(** With a retry count [r >= 0], [request] either fulfils or rejects
    with a [TRPCError]: no raw exception of the transport reaches the
    caller.  With a negative retry count it calls nothing and throws
    [undefined]. *)
Theorem request_rejects_typed (net : Transport) (c : HttpClient)
    (opts : RequestOptions) (schema : option Schema) (w : World) :
  (0 ≤ nullish (retries opts) (c_retries c) →
   (∃ v, (request net c opts schema w).1 = Fulfilled v)
   ∨ (∃ e, (request net c opts schema w).1 = Rejected (Some (ThrownTyped e))))
  ∧ (nullish (retries opts) (c_retries c) < 0 →
     request net c opts schema w = (Rejected None, w)).
Proof.
  split; [|apply RetryProps.request_negative_retries].
  intros Hr.
  destruct (RetryProps.attempts_run net c opts schema (maxAttempts c opts)
              (Z.to_nat (nullish (retries opts) (c_retries c))) 1 None w)
    as (n & _ & _ & _ & _ & Hlast).
  { unfold maxAttempts. lia. }
  fold (request net c opts schema w) in Hlast. unfold attemptAt in Hlast.
  destruct (doFetch_typed c opts schema
              (net (sent w + n - 1)%nat (fetchCall c opts)))
    as [[v Hv]|[e He]].
  - rewrite Hv in Hlast. left. by exists v.
  - rewrite He in Hlast. right. exists e. by destruct Hlast.
Qed.

Lemma request_rejects_typed_witness :
  (∃ e, (request alwaysFailing (clientAt "http://x") usersCall None start).1
        = Rejected (Some (ThrownTyped e)))
  ∧ request alwaysFailing (clientAt "http://x")
      (withPathMethod (Some {| path := EmptyString; method := None;
                               query := None; body := None; headers := None;
                               timeoutMs := None; retries := Some (-1);
                               token := None; traceId := None |})
         "/users" GET) None start
    = (Rejected None, start).
Proof.
  split.
  - destruct (proj1 (request_rejects_typed alwaysFailing (clientAt "http://x")
                       usersCall None start)) as [[v Hv]|He];
      [by vm_compute|discriminate Hv|exact He].
  - apply (proj2 (request_rejects_typed alwaysFailing (clientAt "http://x")
                    _ None start)). by vm_compute.
Defined.

Lemma request_not_idempotent net c opts schema w :
  isIdempotent opts = false → 1 ≤ maxAttempts c opts →
  request net c opts schema w
  = match awaitDoFetch net c opts schema w with
    | (Normal v, w1) => (Fulfilled v, w1)
    | (Abrupt e, w1) => (Rejected (Some e), w1)
    end.
Proof.
  intros Hid Hmax. unfold request. rewrite RetryProps.attempts_unfold.
  rewrite decide_True by lia.
  destruct (awaitDoFetch net c opts schema w) as [[v|e] w1]; [done|].
  rewrite Hid. cbn. by rewrite orb_true_r.
Qed.

Lemma send_once net c p b options schema w m :
  m ∈ [POST; PATCH] →
  0 ≤ nullish (options ≫= retries) (c_retries c) →
  timeline (request net c (withPathMethodBody options p m b) schema w).2
  = timeline w
    ++ [EvFetch {| f_url := buildUrl c p (options ≫= query);
                   f_method := m;
                   f_headers := requestHeaders c (withPathMethodBody options p m b);
                   f_body := if truthy b then b else None;
                   f_deadline := nullish (options ≫= timeoutMs) (c_timeoutMs c) |}]
  ∧ (request net c (withPathMethodBody options p m b) schema w).1
    = settles (doFetch c (withPathMethodBody options p m b) schema
                 (net (sent w) (fetchCall c (withPathMethodBody options p m b)))).
Proof.
  intros Hm Hr.
  assert (Hcall : fetchCall c (withPathMethodBody options p m b)
            = {| f_url := buildUrl c p (options ≫= query);
                 f_method := m;
                 f_headers := requestHeaders c (withPathMethodBody options p m b);
                 f_body := if truthy b then b else None;
                 f_deadline := nullish (options ≫= timeoutMs) (c_timeoutMs c) |}).
  { unfold fetchCall. by destruct options. }
  rewrite request_not_idempotent.
  - unfold awaitDoFetch. rewrite <- Hcall.
    destruct (doFetch _ _ _ _); unfold timeline; cbn [fst snd log settles];
      by rewrite reverse_cons.
  - unfold isIdempotent. cbn.
    apply elem_of_cons in Hm as [->|Hm]; [done|].
    by apply list_elem_of_singleton in Hm as ->.
  - unfold maxAttempts. destruct options; cbn in *; lia.
Qed.

(** [post] and [patch] call the backend exactly once, whatever the retry
    count (if not negative) and however the call fails, and settle as
    that one attempt did.  The call carries the method and path given
    and the [body] argument, which replaces any body among the options
    and is left out when it is falsy (absent, [null], [false], [0] or
    the empty string). *)
Theorem post_and_patch_send_once (net : Transport) (c : HttpClient)
    (p : string) (b : option Json) (options : option RequestOptions)
    (schema : option Schema) (w : World) :
  0 ≤ nullish (options ≫= retries) (c_retries c) →
  (timeline (post net c p b options schema w).2
   = timeline w
     ++ [EvFetch {| f_url := buildUrl c p (options ≫= query);
                    f_method := POST;
                    f_headers := requestHeaders c (withPathMethodBody options p POST b);
                    f_body := if truthy b then b else None;
                    f_deadline := nullish (options ≫= timeoutMs) (c_timeoutMs c) |}]
   ∧ (post net c p b options schema w).1
     = settles (doFetch c (withPathMethodBody options p POST b) schema
                  (net (sent w) (fetchCall c (withPathMethodBody options p POST b)))))
  ∧ (timeline (patch net c p b options schema w).2
     = timeline w
       ++ [EvFetch {| f_url := buildUrl c p (options ≫= query);
                      f_method := PATCH;
                      f_headers := requestHeaders c (withPathMethodBody options p PATCH b);
                      f_body := if truthy b then b else None;
                      f_deadline := nullish (options ≫= timeoutMs) (c_timeoutMs c) |}]
     ∧ (patch net c p b options schema w).1
       = settles (doFetch c (withPathMethodBody options p PATCH b) schema
                    (net (sent w) (fetchCall c (withPathMethodBody options p PATCH b))))).
Proof.
  intros Hr. split; apply send_once; try done.
  - apply (bool_decide_unpack _). reflexivity.
  - apply (bool_decide_unpack _). reflexivity.
Qed.

Lemma post_and_patch_send_once_witness :
  timeline (post alwaysFailing (clientAt "http://x") "/counters"
              (Some (JNum 0)) None None start).2
  = [ EvFetch {| f_url := "http://x/counters"; f_method := POST;
                 f_headers := baseline; f_body := None;
                 f_deadline := 10000 |} ].
Proof.
  destruct (post_and_patch_send_once alwaysFailing (clientAt "http://x")
              "/counters" (Some (JNum 0)) None None start) as [[Ht _] _].
  - by vm_compute.
  - rewrite Ht. reflexivity.
Defined.

End RetryExtras.

(** ** More on a single attempt *)

Module FetchExtras.
Import Js HttpClient Stated StatedExtra.

(** A response schema only judges successes.  Whatever fails without a
    schema fails with the same error with one; what succeeds without a
    schema yields the parsed data when the schema accepts the body and
    the validation error [INTERNAL_SERVER_ERROR] when it does not. *)
Theorem schema_only_judges_successes (c : HttpClient) (opts : RequestOptions)
    (safeParse : Schema) (a : Answer) :
  doFetch c opts (Some safeParse) a
  = match doFetch c opts None a with
    | Abrupt error => Abrupt error
    | Normal raw =>
        match safeParse raw with
        | Some data => Normal data
        | None => Abrupt validationError
        end
    end.
Proof.
  unfold doFetch. destruct (awaitResponse (fetchCall c opts) a) as [r|t]; [|done].
  unfold handleResponse. destruct (readBody r) as [raw|t]; [|done].
  destruct (negb (ok r)); [done|]. by destruct (safeParse raw).
Qed.

(** A query whose values are all [undefined], like an empty query,
    leaves the URL without a query string. *)
Theorem query_without_values_adds_nothing (c : HttpClient) (p : string)
    (entries : list (string * QueryValue)) :
  Forall (fun e => e.2 = QUndefined) entries →
  buildUrl c p (Some entries) = buildUrl c p None.
Proof.
  intros Hall. unfold buildUrl. f_equal.
  generalize (URL.new (joinUrl c p)).
  induction Hall as [|[k v] entries Hv _ IH]; intros u; [done|].
  cbn in Hv. subst v. cbn. apply IH.
Qed.

Lemma query_without_values_adds_nothing_witness :
  buildUrl (clientAt "http://x") "/users"
    (Some [("search", QUndefined); ("page", QUndefined)])
  = "http://x/users".
Proof.
  rewrite (query_without_values_adds_nothing (clientAt "http://x") "/users"
             [("search", QUndefined); ("page", QUndefined)]).
  - reflexivity.
  - repeat constructor.
Defined.

End FetchExtras.

(** ** More on the registry *)

Module RegistryExtras.
Import Js HttpClient ServiceRegistry Stated StatedExtra RegistryProps.

Lemma loadStep_loadedConfig env acc k :
  loadStep env acc k
  = match loadedConfig env k with
    | Some cfg => JsMap.set k cfg acc
    | None => acc
    end.
Proof. unfold loadStep, loadedConfig. by destruct (env !! ENV_VAR_MAP k) as [[|]|]. Qed.

Lemma loadedConfig_cases env k :
  (configured env k = true ∧ ∃ url, loadedConfig env k = Some (configOf k url))
  ∨ (configured env k = false ∧ loadedConfig env k = None).
Proof.
  unfold configured, loadedConfig.
  destruct (env !! ENV_VAR_MAP k) as [[|a s]|]; [by right| |by right].
  left. split; [done|]. by eexists.
Qed.

Ltac each_kind env :=
  destruct (loadedConfig_cases env python) as [[Hc1 [u1 Hl1]]|[Hc1 Hl1]];
  destruct (loadedConfig_cases env bun) as [[Hc2 [u2 Hl2]]|[Hc2 Hl2]];
  destruct (loadedConfig_cases env java) as [[Hc3 [u3 Hl3]]|[Hc3 Hl3]];
  destruct (loadedConfig_cases env nestjs) as [[Hc4 [u4 Hl4]]|[Hc4 Hl4]];
  destruct (loadedConfig_cases env node) as [[Hc5 [u5 Hl5]]|[Hc5 Hl5]];
  destruct (loadedConfig_cases env go) as [[Hc6 [u6 Hl6]]|[Hc6 Hl6]];
  rewrite ?Hl1, ?Hl2, ?Hl3, ?Hl4, ?Hl5, ?Hl6, ?Hc1, ?Hc2, ?Hc3, ?Hc4, ?Hc5, ?Hc6.

Lemma loadServices_omap env :
  loadServices env
  = omap (fun k => (fun cfg => (k, cfg)) <$> loadedConfig env k) ENV_VAR_MAP_keys.
Proof.
  change (loadServices env) with (foldl (loadStep env) [] ENV_VAR_MAP_keys).
  unfold ENV_VAR_MAP_keys. cbn [foldl omap list_omap].
  rewrite !loadStep_loadedConfig.
  each_kind env; reflexivity.
Qed.

(** Whatever the environment, the default service of a new registry is
    the first configured kind in the order nestjs, python, bun, java,
    node, go, and there is none exactly when no kind is configured. *)
Theorem default_follows_preference env :
  getDefaultServiceName (construct env) = List.find (configured env) preference
  ∧ (getDefaultServiceName (construct env) = None
     ↔ ∀ k, configured env k = false).
Proof.
  assert (Hfind : getDefaultServiceName (construct env)
                  = List.find (configured env) preference).
  { unfold getDefaultServiceName, construct. cbn [defaultService].
    rewrite loadServices_omap. unfold ENV_VAR_MAP_keys, preference.
    cbn [omap list_omap List.find].
    each_kind env; reflexivity. }
  split; [exact Hfind|]. rewrite Hfind. split.
  - intros Hnone k. destruct (configured env k) eqn:Hk; [|done].
    assert (In k preference) as Hin.
    { apply list_elem_of_In. destruct k; apply (bool_decide_unpack _); reflexivity. }
    pose proof (List.find_none _ _ Hnone k Hin). congruence.
  - intros Hall. unfold preference. cbn [List.find]. by rewrite !Hall.
Qed.

Lemma loadedConfig_name env k cfg :
  loadedConfig env k = Some cfg →
  name cfg = k ∧ priority cfg = Some (DEFAULT_PRIORITY k)
  ∧ healthPath cfg = Some DEFAULT_HEALTH_PATH ∧ configured env k = true.
Proof.
  destruct (loadedConfig_cases env k) as [[Hc [u ->]]|[_ ->]]; [|done].
  by intros [= <-].
Qed.

(** [getServices] lists one configuration per configured kind, in the
    order python, bun, java, nestjs, node, go and without repetition;
    each is the one [getServiceConfig] returns for its name and carries
    the kind's default priority and the health path [/health]. *)
Theorem getServices_lists_configured env :
  getServices (construct env) = omap (loadedConfig env) ENV_VAR_MAP_keys
  ∧ name <$> getServices (construct env)
    = List.filter (configured env) ENV_VAR_MAP_keys
  ∧ NoDup (name <$> getServices (construct env))
  ∧ ∀ cfg, cfg ∈ getServices (construct env) →
      configured env (name cfg) = true
      ∧ getServiceConfig (name cfg) (construct env) = Some cfg
      ∧ priority cfg = Some (DEFAULT_PRIORITY (name cfg))
      ∧ healthPath cfg = Some DEFAULT_HEALTH_PATH.
Proof.
  assert (Hvalues : getServices (construct env)
                    = omap (loadedConfig env) ENV_VAR_MAP_keys).
  { unfold getServices, construct, JsMap.values. cbn [services].
    rewrite loadServices_omap. unfold ENV_VAR_MAP_keys.
    cbn [omap list_omap]. each_kind env; reflexivity. }
  assert (Hnames : name <$> getServices (construct env)
                   = List.filter (configured env) ENV_VAR_MAP_keys).
  { rewrite Hvalues. unfold ENV_VAR_MAP_keys.
    cbn [omap list_omap List.filter]. each_kind env; reflexivity. }
  split; [done|]. split; [done|]. split.
  { rewrite Hnames. apply NoDup_ListNoDup, List.NoDup_filter, NoDup_ListNoDup.
    apply (bool_decide_unpack _). reflexivity. }
  intros cfg Hin. rewrite Hvalues in Hin.
  apply list_elem_of_omap in Hin as (k & _ & Hk).
  destruct (loadedConfig_name env k cfg Hk) as (Hn & Hp & Hh & Hc).
  rewrite Hn. split; [done|]. split; [|done].
  unfold getServiceConfig, construct. cbn [services].
  by rewrite loadServices_get.
Qed.

(** After construction and after every [reload], [hasService] and
    [getServiceConfig] answer for a kind according to whether its
    variable holds a non-empty value in the environment just read; a
    variable set to the empty string counts as not configured. *)
Theorem hasService_reads_environment env st n :
  hasService n (construct env) = configured env n
  ∧ hasService n (reload env st) = configured env n
  ∧ (getServiceConfig n (reload env st) = None ↔ configured env n = false)
  ∧ (env !! ENV_VAR_MAP n = Some EmptyString → hasService n (construct env) = false).
Proof.
  assert (H : JsMap.has n (loadServices env) = configured env n).
  { unfold JsMap.has. rewrite loadServices_get.
    by destruct (loadedConfig_cases env n) as [[-> [u ->]]|[-> ->]]. }
  split; [exact H|]. split; [exact H|]. split.
  - unfold getServiceConfig, reload. cbn [services]. rewrite loadServices_get.
    destruct (loadedConfig_cases env n) as [[-> [u ->]]|[-> ->]];
      split; intros; done.
  - intros Hempty. unfold hasService, construct. cbn [services]. rewrite H.
    unfold configured. by rewrite Hempty.
Qed.

(** [reload] ends the identity of cached clients: for a service that
    was cached and is still configured, the first [getClient] after a
    reload returns a newly allocated client, distinct from the one
    cached before, built from the reloaded configuration, and that one
    is served from then on. *)
Theorem reload_breaks_identity env st n old service :
  CacheSound st →
  clientCache st !! n = Some old →
  loadedConfig env n = Some service →
  ∃ obj st1,
    getClient n None (reload env st) = (Returns obj, st1)
    ∧ oid obj ≠ oid old
    ∧ client obj = createHttpClient (clientConfig service None)
    ∧ getClient n None st1 = (Returns obj, st1).
Proof.
  intros HC Hold Hs. destruct (HC n old Hold) as [Hlt _].
  unfold getClient at 1. cbn [clientCache services reload nextOid defaultService].
  rewrite lookup_empty, loadServices_get, Hs.
  eexists _, _. split; [done|]. cbn. split; [lia|]. split; [done|].
  unfold getClient. cbn. by rewrite lookup_insert_eq.
Qed.

(** In every reachable state [getClient], with or without overrides,
    throws exactly when the service is not configured, and then the
    error naming its variable; [getDefaultClient] throws exactly when
    no service is configured, and then the error about
    [HALOLIGHT_API_*_URL]. *)
Theorem clients_fail_only_when_unconfigured st n options :
  reachable st →
  ((getClient n options st).1 = Throws (notConfiguredMessage n)
   ↔ hasService n st = false)
  ∧ (hasService n st = true → ∃ obj, (getClient n options st).1 = Returns obj)
  ∧ ((getDefaultClient options st).1 = Throws noDefaultMessage
     ↔ getServices st = [])
  ∧ (getServices st ≠ [] → ∃ obj, (getDefaultClient options st).1 = Returns obj).
Proof.
  intros Hreach.
  pose proof (reachable_CacheSound st Hreach) as HC.
  pose proof (Loaded_CacheSound_Inv st (reachable_Loaded st Hreach) HC)
    as (Hnull & Hkey & _).
  assert (Hget : ∀ k, (∃ obj, (getClient k options st).1 = Returns obj
                              ∧ hasService k st = true)
                      ∨ ((getClient k options st).1 = Throws (notConfiguredMessage k)
                         ∧ hasService k st = false)).
  { intros k. unfold hasService, JsMap.has.
    destruct (getClient_cases k options st)
      as [(cached & Hc & _ & ->) | [(_ & Hs & ->) | (sv & _ & Hs & ->)]].
    - left. exists cached. split; [done|].
      destruct (HC k cached Hc) as [_ (sv & -> & _)]. done.
    - right. by rewrite Hs.
    - left. eexists. split; [done|]. by rewrite Hs. }
  assert (Hsize : getServices st = [] ↔ JsMap.size (services st) = 0%nat).
  { unfold getServices, JsMap.values, JsMap.size. by destruct (services st). }
  split; [|split; [|split]].
  - destruct (Hget n) as [(obj & -> & ->)|[-> ->]]; split; intros; done.
  - intros Hhas. destruct (Hget n) as [(obj & Hobj & _)|[_ Hno]]; [by eexists|].
    congruence.
  - rewrite Hsize, <- Hnull. unfold getDefaultClient.
    destruct (defaultService st) as [d|] eqn:Hd; [|done].
    split; [|done]. intros Hthrow. exfalso.
    destruct (Hget d) as [(obj & Hobj & _)|[Hno Hhas]]; [congruence|].
    destruct (Hkey d eq_refl) as [sv Hsv].
    unfold hasService, JsMap.has in Hhas. by rewrite Hsv in Hhas.
  - intros Hne. unfold getDefaultClient.
    destruct (defaultService st) as [d|] eqn:Hd.
    + destruct (Hget d) as [(obj & Hobj & _)|[Hno Hhas]]; [by eexists|].
      destruct (Hkey d eq_refl) as [sv Hsv].
      unfold hasService, JsMap.has in Hhas. by rewrite Hsv in Hhas.
    + destruct Hne. apply Hsize, Hnull. done.
Qed.

Lemma strip_once u :
  endsWithSlash u = false →
  (if endsWithSlash u then sliceInit u else u) = u
  ∧ (if endsWithSlash (u +:+ "/") then sliceInit (u +:+ "/") else u +:+ "/") = u
  ∧ (if endsWithSlash (u +:+ "//") then sliceInit (u +:+ "//") else u +:+ "//")
    = u +:+ "/".
Proof.
  intros Hu. rewrite Hu. split; [done|].
  rewrite UrlProps.endsWithSlash_app_slash, UrlProps.sliceInit_app_slash.
  split; [done|].
  assert (u +:+ "//" = (u +:+ "/") +:+ "/") as ->.
  { clear Hu. induction u as [|c u IH]; [done|].
    change (String c u +:+ "//") with (String c (u +:+ "//")).
    rewrite IH. done. }
  by rewrite UrlProps.endsWithSlash_app_slash, UrlProps.sliceInit_app_slash.
Qed.

(** A backend URL configured without, with one or with two trailing
    slashes gives the same request URLs as the bare URL [u]:
    [loadServices] removes one slash, [buildUrl] another, and the text
    handed to the URL parser is [u], one slash and the path less its
    leading slash, so that every call, with any query, gets the URL a
    client of the bare base gets. *)
Theorem trailing_slashes_are_absorbed env n u url p path :
  env !! ENV_VAR_MAP n = Some url →
  url ≠ EmptyString →
  url ∈ [u; u +:+ "/"; u +:+ "//"] →
  noTrailingSlash u →
  pathLessSlash path p →
  ∃ service,
    getServiceConfig n (construct env) = Some service
    ∧ (baseUrl service = u ∨ baseUrl service = u +:+ "/")
    ∧ joinUrl (createHttpClient (clientConfig service None)) path
      = u +:+ "/" +:+ p
    ∧ ∀ query,
        buildUrl (createHttpClient (clientConfig service None)) path query
        = buildUrl (clientAt u) ("/" +:+ p) query.
Proof.
  intros Henv Hne Hurl Hu Hpath.
  destruct (strip_once u (UrlProps.noTrailingSlash_endsWithSlash u Hu))
    as (H0 & H1 & H2).
  unfold getServiceConfig, construct. cbn [services].
  rewrite loadServices_get. unfold loadedConfig. rewrite Henv.
  destruct url as [|a s]; [done|]. eexists. split; [done|].
  cbn [baseUrl].
  assert (Hbase : baseLessSlash
                    (if endsWithSlash (String a s) then sliceInit (String a s)
                     else String a s) u).
  { apply elem_of_cons in Hurl as [->|Hurl]; [rewrite H0; by right|].
    apply elem_of_cons in Hurl as [->|Hurl]; [rewrite H1; by right|].
    apply list_elem_of_singleton in Hurl as ->. rewrite H2. by left. }
  split; [destruct Hbase as [->|[-> _]]; auto|].
  assert (Hjoin : ∀ c, baseLessSlash (c_baseUrl c) u →
            joinUrl c path = joinUrl (clientAt u) ("/" +:+ p)).
  { intros c Hc. rewrite (UrlProps.joinUrl_exact c path u p Hc Hpath).
    symmetry. apply UrlProps.joinUrl_exact; [by right|by left]. }
  split.
  - by apply UrlProps.joinUrl_exact.
  - intros query. unfold buildUrl. by rewrite Hjoin.
Qed.

Lemma default_follows_preference_witness :
  (∀ k, configured ∅ k = false)
  ∧ getDefaultServiceName (construct ∅) = None.
Proof.
  assert (H : ∀ k, configured ∅ k = false) by (intros []; reflexivity).
  split; [exact H|].
  exact (proj2 (proj2 (default_follows_preference ∅)) H).
Defined.

Lemma getServices_lists_configured_witness :
  configOf go "http://go:8080" ∈ getServices (construct threeBackends)
  ∧ getServiceConfig go (construct threeBackends)
    = Some (configOf go "http://go:8080").
Proof.
  assert (H : configOf go "http://go:8080" ∈ getServices (construct threeBackends)).
  { apply list_elem_of_lookup. exists 2%nat. reflexivity. }
  split; [exact H|].
  exact (proj1 (proj2 (proj2 (proj2 (proj2
           (getServices_lists_configured threeBackends)))
           (configOf go "http://go:8080") H))).
Defined.

Lemma hasService_reads_environment_witness :
  hasService python (construct emptyPython) = false
  ∧ hasService go (construct emptyPython) = true.
Proof.
  split.
  - apply (proj2 (proj2 (proj2 (hasService_reads_environment emptyPython
                                  (construct emptyPython) python)))).
    reflexivity.
  - rewrite (proj1 (hasService_reads_environment emptyPython
                      (construct emptyPython) go)).
    reflexivity.
Defined.

Lemma reload_breaks_identity_witness :
  ∃ obj st1,
    getClient nestjs None
      (reload threeBackends
         (step (OpGetClient nestjs None) (construct threeBackends)))
    = (Returns obj, st1)
    ∧ oid obj ≠ 0%nat.
Proof.
  destruct (reload_breaks_identity threeBackends
              (step (OpGetClient nestjs None) (construct threeBackends)) nestjs
              {| oid := 0;
                 client := createHttpClient
                   (clientConfig (configOf nestjs "http://nestjs:3000") None) |}
              (configOf nestjs "http://nestjs:3000"))
    as (obj & st1 & Hget & Hne & _).
  - apply reachable_CacheSound, reach_step, reach_construct.
  - reflexivity.
  - reflexivity.
  - exists obj, st1. split; [exact Hget|exact Hne].
Defined.

Lemma clients_fail_only_when_unconfigured_witness :
  reachable (construct threeBackends)
  ∧ hasService bun (construct threeBackends) = false
  ∧ (getClient bun None (construct threeBackends)).1
    = Throws (notConfiguredMessage bun).
Proof.
  split; [apply reach_construct|]. split; [reflexivity|].
  apply (proj2 (proj1 (clients_fail_only_when_unconfigured
                         (construct threeBackends) bun None
                         (reach_construct threeBackends)))).
  reflexivity.
Defined.

Lemma trailing_slashes_are_absorbed_witness :
  ∃ service,
    getServiceConfig go (construct threeBackends) = Some service
    ∧ joinUrl (createHttpClient (clientConfig service None)) "/health"
      = "http://go:8080/health".
Proof.
  destruct (trailing_slashes_are_absorbed threeBackends go "http://go:8080"
              "http://go:8080/" "health" "/health")
    as (service & Hcfg & _ & Hurl & _).
  - reflexivity.
  - discriminate.
  - apply (bool_decide_unpack _). reflexivity.
  - intros b' Hb'. apply (f_equal endsWithSlash) in Hb'.
    rewrite UrlProps.endsWithSlash_app_slash in Hb'. discriminate Hb'.
  - left. reflexivity.
  - exists service. split; [exact Hcfg|exact Hurl].
Defined.

Lemma checkHealth_run net n st w service :
  CacheSound st → JsMap.get n (services st) = Some service →
  checkHealth net n st w
  = ({| healthy := match doFetch (createHttpClient (clientConfig service None))
                           (withPathMethod (Some healthOptions) (probePath service) GET)
                           None (net (sent w) (probeCall service)) with
                   | Normal _ => true
                   | Abrupt _ => false
                   end;
        latencyMs := Z.min (latency (net (sent w) (probeCall service))) 3000 |},
     (getClient n None st).2,
     {| now := now w + Z.min (latency (net (sent w) (probeCall service))) 3000;
        sent := S (sent w);
        log := EvFetch (probeCall service) :: log w |}).
Proof.
  intros HC Hs.
  destruct (getClient_cached_client n st service HC Hs)
    as (obj & st1 & Hget & Hclient).
  unfold checkHealth. rewrite Hs, Hget, Hclient. fold (probePath service).
  unfold HttpClient.get. rewrite request_single by reflexivity.
  unfold awaitDoFetch. fold (probeCall service).
  change (f_deadline (probeCall service)) with 3000.
  destruct (doFetch _ _ _ _); cbn [snd now];
    match goal with
    | |- context [?a + ?b - ?a] => replace (a + b - a) with b by lia
    end; reflexivity.
Qed.

(** When the transport's latencies are not negative, the latency
    [checkHealth] reports is at most 3000 ms, is not negative for a
    configured service, and is -1 exactly for a service that is not
    configured; a probe moves the clock by at most 3000 ms. *)
Theorem checkHealth_latency_range (net : Transport) (n : ServiceKind)
    (st : State) (w : World) :
  CacheSound st →
  (∀ k call, 0 ≤ latency (net k call)) →
  latencyMs (checkHealth net n st w).1.1 ≤ 3000
  ∧ (hasService n st = true → 0 ≤ latencyMs (checkHealth net n st w).1.1)
  ∧ (latencyMs (checkHealth net n st w).1.1 = -1 ↔ hasService n st = false)
  ∧ now (checkHealth net n st w).2 - now w ≤ 3000.
Proof.
  intros HC Hlat. unfold hasService, JsMap.has.
  destruct (JsMap.get n (services st)) as [service|] eqn:Hs.
  - rewrite (checkHealth_run net n st w service HC Hs). cbn.
    specialize (Hlat (sent w) (probeCall service)).
    split; [lia|]. split; [lia|]. split; [|lia]. split; [lia|done].
  - unfold checkHealth. rewrite Hs. cbn. split; [lia|]. split; [done|].
    split; [done|lia].
Qed.

(** A probe of a configured service leaves the configuration and the
    default as they were and allocates at most one client: the one it
    stores in the cache when none was there.  [getClient] then returns
    that client, and later probes of the service leave the registry
    unchanged. *)
Theorem checkHealth_settles_cache (net : Transport) (n : ServiceKind)
    (st : State) (w : World) (service : ServiceConfig) :
  CacheSound st →
  JsMap.get n (services st) = Some service →
  let st1 := (checkHealth net n st w).1.2 in
  services st1 = services st
  ∧ defaultService st1 = defaultService st
  ∧ (nextOid st1 ≤ S (nextOid st))%nat
  ∧ (∃ obj, clientCache st1 !! n = Some obj
            ∧ client obj = createHttpClient (clientConfig service None)
            ∧ getClient n None st1 = (Returns obj, st1))
  ∧ (∀ net' w', (checkHealth net' n st1 w').1.2 = st1).
Proof.
  intros HC Hs st1.
  assert (Hst1 : st1 = (getClient n None st).2).
  { unfold st1. by rewrite (checkHealth_run net n st w service HC Hs). }
  assert (HC1 : CacheSound st1) by (rewrite Hst1; by apply getClient_CacheSound).
  assert (Hfacts : services st1 = services st
                   ∧ defaultService st1 = defaultService st
                   ∧ (nextOid st1 ≤ S (nextOid st))%nat
                   ∧ ∃ obj, clientCache st1 !! n = Some obj).
  { rewrite Hst1. destruct (getClient_cases n None st)
      as [(cached & Hc & _ & ->) | [(_ & Hnone & _) | (sv & _ & _ & ->)]].
    - cbn. split; [done|]. split; [done|]. split; [lia|]. by eexists.
    - congruence.
    - cbn. split; [done|]. split; [done|]. split; [lia|].
      eexists. by rewrite lookup_insert_eq. }
  destruct Hfacts as (Hsv & Hd & Hoid & obj & Hobj).
  assert (Hs1 : JsMap.get n (services st1) = Some service) by (by rewrite Hsv).
  assert (Hhit : getClient n None st1 = (Returns obj, st1)).
  { unfold getClient. by rewrite Hobj. }
  split; [done|]. split; [done|]. split; [done|]. split.
  - exists obj. split; [done|]. split; [|done].
    destruct (HC1 n obj Hobj) as [_ (sv & Hsv' & ->)]. congruence.
  - intros net' w'. rewrite (checkHealth_run net' n st1 w' service HC1 Hs1).
    cbn. by rewrite Hhit.
Qed.

Lemma checkHealth_latency_range_witness :
  latencyMs (checkHealth alwaysFailing python (construct threeBackends) start).1.1
  ≤ 3000
  ∧ latencyMs (checkHealth alwaysFailing bun (construct threeBackends) start).1.1
    = -1.
Proof.
  assert (HC : CacheSound (construct threeBackends)).
  { apply reachable_CacheSound, reach_construct. }
  assert (Hlat : ∀ (k : nat) (call : FetchCall), 0 ≤ latency (alwaysFailing k call)).
  { intros k call. by vm_compute. }
  split.
  - apply (checkHealth_latency_range alwaysFailing python
             (construct threeBackends) start HC Hlat).
  - apply (proj2 (proj1 (proj2 (proj2
             (checkHealth_latency_range alwaysFailing bun
                (construct threeBackends) start HC Hlat))))).
    reflexivity.
Defined.

Lemma checkHealth_settles_cache_witness :
  (checkHealth failsOnce python
     (checkHealth alwaysFailing python (construct threeBackends) start).1.2
     start).1.2
  = (checkHealth alwaysFailing python (construct threeBackends) start).1.2.
Proof.
  apply (checkHealth_settles_cache alwaysFailing python
           (construct threeBackends) start
           (configOf python "https://api.example.com")).
  - apply reachable_CacheSound, reach_construct.
  - reflexivity.
Defined.

End RegistryExtras.

(** ** The request context and the middleware *)

Module ContextExtras.
Import Js HttpClient ServiceRegistry Stated StatedExtra CreateContext Auth.
Import RegistryProps.

Lemma splitSpace_noSpace a : noSpace a = true → splitSpace a = [a].
Proof.
  induction a as [|c a IH]; [done|]. cbn.
  intros [Hc Ha]%andb_true_iff. apply negb_true_iff in Hc. rewrite Hc.
  by rewrite IH.
Qed.

Lemma splitSpace_app a b :
  noSpace a = true → splitSpace (a +:+ " " +:+ b) = a :: splitSpace b.
Proof.
  induction a as [|c a IH]; [done|].
  change (String c a +:+ " " +:+ b) with (String c (a +:+ " " +:+ b)).
  cbn. intros [Hc Ha]%andb_true_iff. apply negb_true_iff in Hc. rewrite Hc.
  by rewrite IH.
Qed.

(** The token is the second space-separated word of the
    [Authorization] header, whatever the first word is: the scheme is
    not checked and further words are ignored.  A header without a space
    gives no token, and two spaces after the scheme give the empty
    token. *)
Theorem secondWord_ignores_scheme :
  (∀ scheme t rest x y,
     noSpace scheme = true → noSpace t = true →
     secondWord {| authorization := Some (scheme +:+ " " +:+ t);
                   x_trace_id := x; x_request_id := y |} = Some t
     ∧ secondWord {| authorization := Some (scheme +:+ " " +:+ t +:+ " " +:+ rest);
                     x_trace_id := x; x_request_id := y |} = Some t
     ∧ secondWord {| authorization := Some (scheme +:+ "  " +:+ t);
                     x_trace_id := x; x_request_id := y |} = Some EmptyString)
  ∧ (∀ h x y, noSpace h = true →
       secondWord {| authorization := Some h; x_trace_id := x;
                     x_request_id := y |} = None)
  ∧ (∀ x y, secondWord {| authorization := None; x_trace_id := x;
                          x_request_id := y |} = None).
Proof.
  split; [|split]; [|by intros h x y Hh; unfold secondWord; cbn;
                      rewrite splitSpace_noSpace|done].
  intros scheme t rest x y Hs Ht. unfold secondWord. cbn [authorization mbind option_bind].
  split; [|split].
  - rewrite splitSpace_app by done. by rewrite splitSpace_noSpace.
  - rewrite !splitSpace_app by done. done.
  - change (scheme +:+ "  " +:+ t) with (scheme +:+ " " +:+ (EmptyString +:+ " " +:+ t)).
    rewrite !splitSpace_app by done. done.
Qed.

Lemma context_call_headers (ctx : Context) n st obj st' opts :
  CreateContext.get ctx n st = (Returns obj, st')
  ∨ CreateContext.getDefault ctx st = (Returns obj, st') →
  plainCall opts →
  f_headers (fetchCall (client obj) opts) !! "X-Trace-Id" = Some (traceId ctx)
  ∧ f_headers (fetchCall (client obj) opts) !! "X-Request-Id" = None
  ∧ f_headers (fetchCall (client obj) opts) !! "Authorization"
    = match token ctx with
      | Some (String a t) => Some ("Bearer " +:+ String a t)
      | _ => None
      end.
Proof.
  intros Hobj (Htr & Htk & H1 & H2 & H3).
  assert (Hdef : c_defaultHeaders (client obj)
                 = RequestContext.contextHeaders (token ctx) (traceId ctx)).
  { apply (ContextProps.context_client_defaults _ _ st obj st').
    destruct Hobj as [H|H]; [left; by exists n|by right]. }
  cbn [f_headers fetchCall]. rewrite !FetchProps.requestHeaders_lookup.
  rewrite Hdef, !ContextProps.contextHeaders_lookup, H1, H2, H3.
  unfold traceLayer, authLayer.
  destruct (HttpClient.traceId opts) as [[|]|]; try discriminate;
    destruct (HttpClient.token opts) as [[|]|]; try discriminate;
    rewrite ?lookup_empty; cbn; by destruct (token ctx) as [[|]|].
Qed.

(** The trace id of a context is the inbound [X-Trace-Id] header when
    it is not empty, else the inbound [X-Request-Id] header when it is
    not empty, else the generated id.  Every call a router makes
    through the context's clients, naming no trace header itself,
    carries it as [X-Trace-Id] and carries no [X-Request-Id]. *)
Theorem trace_id_is_propagated (verify : Verifier) (env : gmap string string)
    (uuid : string) (r : Request) (n : ServiceKind) (st st' : State)
    (obj : ClientObject) (opts : RequestOptions) :
  let ctx := createContext verify env uuid r in
  CreateContext.get ctx n st = (Returns obj, st')
  ∨ CreateContext.getDefault ctx st = (Returns obj, st') →
  plainCall opts →
  (∀ a t, x_trace_id r = Some (String a t) → traceId ctx = String a t)
  ∧ (∀ a t, truthyStr (x_trace_id r) = false →
       x_request_id r = Some (String a t) → traceId ctx = String a t)
  ∧ (truthyStr (x_trace_id r) = false → truthyStr (x_request_id r) = false →
     traceId ctx = uuid)
  ∧ f_headers (fetchCall (client obj) opts) !! "X-Trace-Id" = Some (traceId ctx)
  ∧ f_headers (fetchCall (client obj) opts) !! "X-Request-Id" = None.
Proof.
  intros ctx Hobj Hplain.
  destruct (context_call_headers ctx n st obj st' opts Hobj Hplain) as (H1 & H2 & _).
  unfold ctx, createContext. cbn [traceId].
  split; [by intros a t ->|]. split; [|split; [|done]].
  - intros a t Hx ->. by destruct (x_trace_id r) as [[|]|].
  - intros Hx Hy. by destruct (x_trace_id r) as [[|]|], (x_request_id r) as [[|]|].
Qed.

(** The context keeps the token whether or not it verifies, and calls
    made through the context's clients send it as
    [Authorization: Bearer <token>], whatever scheme the inbound header
    named; only [user] depends on the verification. *)
Theorem token_is_forwarded_unverified (verify : Verifier)
    (env : gmap string string) (uuid : string) (r : Request)
    (scheme : string) (a : ascii) (t : string)
    (n : ServiceKind) (st st' : State) (obj : ClientObject)
    (opts : RequestOptions) :
  let ctx := createContext verify env uuid r in
  authorization r = Some (scheme +:+ " " +:+ String a t) →
  noSpace scheme = true → noSpace (String a t) = true →
  CreateContext.get ctx n st = (Returns obj, st')
  ∨ CreateContext.getDefault ctx st = (Returns obj, st') →
  plainCall opts →
  token ctx = Some (String a t)
  ∧ user ctx = verify (String a t) (jwtSecret env)
  ∧ f_headers (fetchCall (client obj) opts) !! "Authorization"
    = Some ("Bearer " +:+ String a t).
Proof.
  intros ctx Hauth Hs Ht Hobj Hplain.
  assert (Htoken : secondWord r = Some (String a t)).
  { unfold secondWord. rewrite Hauth. cbn.
    rewrite splitSpace_app by done. by rewrite splitSpace_noSpace. }
  destruct (context_call_headers ctx n st obj st' opts Hobj Hplain) as (_ & _ & H3).
  unfold ctx, createContext in *. cbn [token user] in *.
  rewrite Htoken in *. done.
Qed.

(** [ctx.services.get] allocates a client on every call and never
    touches the cache: two calls return distinct objects.  The client
    is bound to the service's base URL with the registry's policy of
    10000 ms and 2 retries, and the call throws exactly when the
    service is not configured. *)
Theorem context_clients_are_never_cached (ctx1 ctx2 : Context)
    (n1 n2 : ServiceKind) (st : State) :
  let r1 := CreateContext.get ctx1 n1 st in
  let r2 := CreateContext.get ctx2 n2 r1.2 in
  clientCache r2.2 = clientCache st
  ∧ (∀ o1 o2, r1.1 = Returns o1 → r2.1 = Returns o2 → oid o1 ≠ oid o2)
  ∧ (∀ o1 service, r1.1 = Returns o1 →
       JsMap.get n1 (services st) = Some service →
       oid o1 = nextOid st
       ∧ c_baseUrl (client o1) = baseUrl service
       ∧ c_timeoutMs (client o1) = 10000
       ∧ c_retries (client o1) = 2)
  ∧ (r1.1 = Throws (notConfiguredMessage n1) ↔ hasService n1 st = false).
Proof.
  intros r1 r2. unfold r2, r1, CreateContext.get, RequestContext.services_get.
  set (o1 := RequestContext.contextOptions (token ctx1) (traceId ctx1)).
  set (o2 := RequestContext.contextOptions (token ctx2) (traceId ctx2)).
  unfold hasService, JsMap.has.
  destruct (getClient_cases n1 (Some o1) st)
    as [(cached & _ & [=] & _) | [(_ & Hs1 & ->) | (sv1 & _ & Hs1 & ->)]];
    cbn [fst snd]; rewrite Hs1.
  - destruct (getClient_cases n2 (Some o2) st)
      as [(cached & _ & [=] & _) | [(_ & Hs2 & ->) | (sv2 & _ & Hs2 & ->)]];
      cbn [fst snd clientCache]; (split; [done|]); (split; [done|]);
      (split; [done|]); done.
  - set (st1 := {| services := services st; defaultService := defaultService st;
                   clientCache := clientCache st; nextOid := S (nextOid st) |}).
    assert (Hrest : ∀ o1' service, Returns
              {| oid := nextOid st;
                 client := createHttpClient (clientConfig sv1 (Some o1)) |}
              = Returns o1' → Some sv1 = Some service →
              oid o1' = nextOid st ∧ c_baseUrl (client o1') = baseUrl service
              ∧ c_timeoutMs (client o1') = 10000 ∧ c_retries (client o1') = 2).
    { intros o1' service [= <-] [= <-]. done. }
    destruct (getClient_cases n2 (Some o2) st1)
      as [(cached & _ & [=] & _) | [(_ & Hs2 & ->) | (sv2 & _ & Hs2 & ->)]];
      cbn [fst snd clientCache]; (split; [done|]); (split; [|split; [exact Hrest|done]]).
    + done.
    + intros o1' o2' [= <-] [= <-]. cbn. lia.
Qed.

(** On a context built by [createContext] with the same verifier and
    environment, [isAuthenticated] passes the context on unchanged when
    its [user] is set, and otherwise rejects with UNAUTHORIZED: for a
    missing or empty token with "No authentication token provided",
    else with "Invalid or expired token". *)
Theorem isAuthenticated_agrees_with_context (verify : Verifier)
    (env : gmap string string) (uuid : string) (r : Request) :
  let ctx := createContext verify env uuid r in
  match user ctx with
  | Some _ => isAuthenticated verify env ctx = Next ctx
  | None =>
      isAuthenticated verify env ctx
      = reject UNAUTHORIZED
          (if truthyStr (token ctx) then "Invalid or expired token"
           else "No authentication token provided")
  end.
Proof.
  intros ctx. unfold ctx, createContext, isAuthenticated. cbn [user token req].
  destruct (secondWord r) as [[|a t]|]; cbn; try done.
  by destruct (verify (String a t) (jwtSecret env)).
Qed.


Example payload_without_role_raises :
  hasPermission "users:read"
    {| req := inboundGood; user := Some (JObj [("sub", JStr "42")]);
       token := Some "good"; traceId := "t-1" |}
  = TypeError.
Proof. reflexivity. Qed.

Example permissions_as_text_match_by_substring :
  hasPermission "users"
    {| req := inboundGood;
       user := Some (JObj [("role", JObj [("permissions", JStr "users:read")])]);
       token := Some "good"; traceId := "t-1" |}
  = Next {| req := inboundGood;
            user := Some (JObj [("role", JObj [("permissions", JStr "users:read")])]);
            token := Some "good"; traceId := "t-1" |}.
Proof. reflexivity. Qed.



Lemma secondWord_ignores_scheme_witness :
  secondWord inbound = Some "abc".
Proof.
  apply (proj1 (proj1 secondWord_ignores_scheme "Basic" "abc" EmptyString
                  None (Some "rid-7") eq_refl eq_refl)).
Defined.

Lemma plainCall_usersCall : plainCall usersCall.
Proof. repeat split. Qed.

Lemma trace_id_is_propagated_witness :
  match (CreateContext.get (createContext acceptsGood ∅ "uuid-1" inbound)
           nestjs (construct threeBackends)).1 with
  | Returns obj =>
      f_headers (fetchCall (client obj) usersCall) !! "X-Trace-Id"
      = Some "rid-7"
  | Throws _ => False
  end.
Proof.
  destruct (CreateContext.get (createContext acceptsGood ∅ "uuid-1" inbound)
              nestjs (construct threeBackends)) as [[obj|msg] st'] eqn:E;
    [|vm_compute in E; discriminate E].
  cbn [fst].
  apply (proj1 (proj2 (proj2 (proj2
           (trace_id_is_propagated acceptsGood ∅ "uuid-1" inbound nestjs
              (construct threeBackends) st' obj usersCall (or_introl E)
              plainCall_usersCall))))).
Defined.

Lemma token_is_forwarded_unverified_witness :
  user (createContext acceptsGood ∅ "uuid-1" inbound) = None
  ∧ match (CreateContext.get (createContext acceptsGood ∅ "uuid-1" inbound)
             nestjs (construct threeBackends)).1 with
    | Returns obj =>
        f_headers (fetchCall (client obj) usersCall) !! "Authorization"
        = Some "Bearer abc"
    | Throws _ => False
    end.
Proof.
  split; [reflexivity|].
  destruct (CreateContext.get (createContext acceptsGood ∅ "uuid-1" inbound)
              nestjs (construct threeBackends)) as [[obj|msg] st'] eqn:E;
    [|vm_compute in E; discriminate E].
  cbn [fst].
  apply (proj2 (proj2
           (token_is_forwarded_unverified acceptsGood ∅ "uuid-1" inbound
              "Basic" "a"%char "bc" nestjs (construct threeBackends) st' obj
              usersCall eq_refl eq_refl eq_refl (or_introl E)
              plainCall_usersCall))).
Defined.

Lemma context_clients_are_never_cached_witness :
  match (CreateContext.get (createContext acceptsGood ∅ "uuid-1" inbound)
           nestjs (construct threeBackends)).1,
        (CreateContext.get (createContext acceptsGood ∅ "uuid-2" inboundGood)
           nestjs
           (CreateContext.get (createContext acceptsGood ∅ "uuid-1" inbound)
              nestjs (construct threeBackends)).2).1 with
  | Returns o1, Returns o2 => oid o1 ≠ oid o2
  | _, _ => False
  end.
Proof.
  pose proof (context_clients_are_never_cached
                (createContext acceptsGood ∅ "uuid-1" inbound)
                (createContext acceptsGood ∅ "uuid-2" inboundGood)
                nestjs nestjs (construct threeBackends)) as H.
  cbv zeta in H. destruct H as (_ & Hdistinct & _).
  destruct ((CreateContext.get (createContext acceptsGood ∅ "uuid-1" inbound)
               nestjs (construct threeBackends)).1) as [o1|m1] eqn:E1;
    [|vm_compute in E1; discriminate E1].
  destruct ((CreateContext.get (createContext acceptsGood ∅ "uuid-2" inboundGood)
               nestjs
               (CreateContext.get (createContext acceptsGood ∅ "uuid-1" inbound)
                  nestjs (construct threeBackends)).2).1) as [o2|m2] eqn:E2;
    [|vm_compute in E2; discriminate E2].
  by apply Hdistinct.
Defined.


End ContextExtras.
